(** * icso.py: extraction, normalisation and the resumable crawl loop

    A shallow embedding of [src/icso.py].  Python strings are [string]s of
    ASCII characters (the labels of the scraped site are English; code points
    above 127 are outside the model), Python dicts are [gmap string _], the
    two TinyDB tables are lists of documents, and the effects of the script
    (table inserts, HTTP requests, sleeps, log lines, uncaught exceptions)
    are threaded through a state-and-exception monad. *)

From Stdlib Require Import Ascii String List Arith Bool Lia.
From stdpp Require Import base option list strings gmap fin_maps.

Local Open Scope string_scope.
Local Open Scope list_scope.

(** ** Python string primitives *)

Module Py.

Definition code (c : ascii) : nat := nat_of_ascii c.

Definition between (lo hi : nat) (c : ascii) : bool :=
  Nat.leb lo (code c) && Nat.leb (code c) hi.

(** [str.isspace] on the ASCII range: TAB, LF, VT, FF, CR, FS, GS, RS, US
    and the space. *)
Definition isspace (c : ascii) : bool :=
  between 9 13 c || between 28 32 c.

(** What [\w] matches on the ASCII range. *)
Definition isword (c : ascii) : bool :=
  between 48 57 c || between 65 90 c || between 97 122 c
  || Ascii.eqb c "_"%char.

(** What [\d] matches on the ASCII range. *)
Definition isdigit (c : ascii) : bool := between 48 57 c.

Definition lower_char (c : ascii) : ascii :=
  if between 65 90 c then ascii_of_nat (code c + 32) else c.

Fixpoint map_chars (f : ascii -> ascii) (s : string) : string :=
  match s with
  | EmptyString => EmptyString
  | String c r => String (f c) (map_chars f r)
  end.

Fixpoint filter_chars (p : ascii -> bool) (s : string) : string :=
  match s with
  | EmptyString => EmptyString
  | String c r => if p c then String c (filter_chars p r) else filter_chars p r
  end.

(** [s.lower()] *)
Definition lower (s : string) : string := map_chars lower_char s.

Fixpoint lstrip (s : string) : string :=
  match s with
  | EmptyString => EmptyString
  | String c r => if isspace c then lstrip r else s
  end.

Fixpoint rstrip (s : string) : string :=
  match s with
  | EmptyString => EmptyString
  | String c r =>
      match rstrip r with
      | EmptyString => if isspace c then EmptyString else String c EmptyString
      | r' => String c r'
      end
  end.

(** [s.strip()] *)
Definition strip (s : string) : string := rstrip (lstrip s).

(** [s.replace(old, new)] for a non-empty [old] (every call of the script
    passes a literal): one pass from the left, a replaced occurrence is not
    looked at again.  [skip] counts the characters of an occurrence that
    are still to be passed over. *)
Fixpoint replace_from (old new : string) (skip : nat) (s : string) : string :=
  match s with
  | EmptyString => EmptyString
  | String c r =>
      match skip with
      | S k => replace_from old new k r
      | O =>
          if String.prefix old s
          then new +:+ replace_from old new (String.length old - 1) r
          else String c (replace_from old new 0 r)
      end
  end.

Definition replace (old new s : string) : string := replace_from old new 0 s.

(** [needle in s] *)
Fixpoint contains (needle s : string) : bool :=
  String.prefix needle s ||
  match s with
  | EmptyString => false
  | String _ r => contains needle r
  end.

(** [s[n:]] *)
Fixpoint drop (n : nat) (s : string) : string :=
  match n, s with
  | S k, String _ r => drop k r
  | _, _ => s
  end.

(** The longest prefix of [s] made of digits: what a greedy [\d+] takes. *)
Fixpoint take_digits (s : string) : string :=
  match s with
  | EmptyString => EmptyString
  | String c r => if isdigit c then String c (take_digits r) else EmptyString
  end.

(** [x in l] for a list of strings. *)
Definition in_list (x : string) (l : list string) : bool :=
  existsb (String.eqb x) l.

End Py.

(** ** Exceptions and results *)

(** The exceptions the script can let escape. *)
Inductive exn : Type :=
| IndexError
| KeyError (key : string)
| TypeError
| AttributeError
| ConnectionError.

Inductive result (A : Type) : Type :=
| Ok (a : A)
| Raise (e : exn).
Arguments Ok {A} a.
Arguments Raise {A} e.

#[global] Instance result_ret : MRet result := fun _ a => Ok a.
#[global] Instance result_bind : MBind result := fun _ _ f r =>
  match r with
  | Ok a => f a
  | Raise e => Raise e
  end.

(** ** Groups of special fields (icso.py, lines 26-29) *)

Definition faux_contact_headers : list string :=
  ["headquarters_address"; "preferred_mailing_address"].
Definition contact_keys : list string := ["address"; "phone"; "fax"; "email"].
Definition list_only_fields : list string :=
  ["languages"; "millennium_development_goals";
   "funding_structure"; "country_geographical_area_of_activity"].

(** ** clean_key and clean_value_text *)

(** [re.sub(r"\W", "", s)] *)
Definition sub_nonword (s : string) : string := Py.filter_chars Py.isword s.

(** [re.sub("_$|_yyyy$", "", s)].  The subject has been through
    [sub_nonword], so it holds no newline and [$] is the end of the string:
    the leftmost position whose whole remainder is [_] or [_yyyy] is cut. *)
Fixpoint sub_trailing (s : string) : string :=
  match s with
  | EmptyString => EmptyString
  | String c r =>
      if String.eqb s "_" || String.eqb s "_yyyy" then EmptyString
      else String c (sub_trailing r)
  end.

(** The value of [key_clean] after line 69, before the prefix is added. *)
Definition key_base (cell : string) : string :=
  let key_clean := sub_nonword (Py.replace " " "_" (Py.lower (Py.strip cell))) in
  sub_trailing (Py.replace "__" "_" key_clean).

(** [clean_key(cell, contact_type)].  [contact_type] is [None] when the caller
    passes Python's [None] (clean_activity_list does); [None + '_'] is a
    [TypeError]. *)
Definition clean_key (cell : string) (contact_type : option string)
  : result string :=
  let key_clean := key_base cell in
  if Py.in_list key_clean contact_keys then
    match contact_type with
    | Some t => Ok (t +:+ "_" +:+ key_clean)
    | None => Raise TypeError
    end
  else Ok key_clean.

Definition TAB : string := String (ascii_of_nat 9) EmptyString.
Definition LF : string := String (ascii_of_nat 10) EmptyString.

(** [clean_value_text(cell)] *)
Definition clean_value_text (cell : string) : string :=
  Py.replace (LF +:+ LF) LF (Py.replace TAB "" (Py.strip cell)).

(** ** The parsed documents

    BeautifulSoup is outside the script.  A document is given by what the
    calls the script makes on it return: [select], [find_all], [find],
    [.text], [.name] and [.get('href')]. *)

Inductive tag : Type := B | LI.

(** An element returned by [cell.find_all(['b', 'li'])]. *)
Record element : Type := Element { name : tag; etext : string }.

(** A [th] or [td] of a detail page: its [.text] and, in document order, its
    [b] and [li] descendants. *)
Record cell : Type := Cell { text : string; find_all_b_li : list element }.

(** [cell.find_all('li')]: the [li] elements among the same descendants. *)
Definition find_all_li (c : cell) : list element :=
  List.filter (fun e => match name e with LI => true | B => false end)
    (find_all_b_li c).

(** A row is [row.find_all(["th", "td"])], a table is [table.find_all('tr')],
    a form is [form.find_all('table')] and a detail page is
    [soup.select('form')]. *)
Abbreviation row := (list cell).
Abbreviation table := (list row).
Abbreviation form := (list table).
Abbreviation soup := (list form).

(** The listing page.  A [td] is seen through [td.find('a')], an anchor
    through [.get('href')] and [.text]; a listing row is
    [row.find_all('td')], and the page is
    [select('#content table.result')]. *)
Record anchor : Type := Anchor { href : option string; atext : string }.
Abbreviation list_row := (list (option anchor)).
Abbreviation list_table := (list list_row).

(** What [requests.get] does: it raises (no connection, timeout, ...) or
    returns a response, whose body the script parses whatever the status. *)
Record response : Type := Response { status_code : nat; body : soup }.
Inductive reply : Type :=
| Unreachable
| Http (r : response).

(** ** Records *)

(** A value of the organization dict: a string (plain text), a list of
    strings (list-only fields) or a dict of lists (areas of expertise). *)
Inductive field_value : Type :=
| Scalar (s : string)
| ListValue (items : list string)
| SectionedList (sections : gmap string (list string)).

Abbreviation org_record := (gmap string field_value).

(** A document of [org_ids]: [{'org_name': ..., 'org_id': ...}]. *)
Record identity : Type := Identity { org_name : string; org_id : string }.

(** ** clean_value_list and clean_activity_list *)

Definition clean_value_list (c : cell) : list string :=
  List.map (fun li => clean_value_text (etext li)) (find_all_li c).

(** The loop of clean_activity_list, with its two variables.
    [activities[area_key].append(...)] is a [KeyError] when [area_key] is not
    a key of [activities]. *)
Fixpoint activity_loop (area_key : string)
    (activities : gmap string (list string)) (elements : list element)
  : result (gmap string (list string)) :=
  match elements with
  | [] => Ok activities
  | element :: rest =>
      match name element with
      | B =>
          area_key ← clean_key (etext element) None;
          activity_loop area_key (<[area_key := []]> activities) rest
      | LI =>
          match activities !! area_key with
          | None => Raise (KeyError area_key)
          | Some l =>
              activity_loop area_key
                (<[area_key := l ++ [clean_value_text (etext element)]]>
                   activities) rest
          end
      end
  end.

Definition clean_activity_list (c : cell)
  : result (gmap string (list string)) :=
  activity_loop "" ∅ (find_all_b_li c).

(** ** The body of get_parse_org: tables, rows, cells *)

(** Lines 142-152: what is stored for a row whose key is [key]. *)
Definition store_row (contact_type : string) (organization : org_record)
    (key : string) (value_raw : cell) : result (string * org_record) :=
  if negb (Py.in_list key faux_contact_headers) then
    if Py.in_list key list_only_fields then
      Ok (contact_type,
          <[key := ListValue (clean_value_list value_raw)]> organization)
    else if String.eqb key "areas_of_expertise_fields_of_activity" then
      activities ← clean_activity_list value_raw;
      Ok (contact_type, <[key := SectionedList activities]> organization)
    else
      Ok (contact_type,
          <[key := Scalar (clean_value_text (text value_raw))]> organization)
  else Ok (contact_type, organization).

(** One iteration of [for row in rows], on the pair of [contact_type] and
    [organization] that the loop updates. *)
Definition parse_row (st : string * org_record) (cells_raw : row)
  : result (string * org_record) :=
  let '(contact_type, organization) := st in
  match cells_raw with
  | [key_raw; value_raw] =>
      let contact_type :=
        if String.eqb (text key_raw) "Preferred mailing address"
        then "preferred" else contact_type in
      key ← clean_key (text key_raw) (Some contact_type);
      store_row contact_type organization key value_raw
  | _ => Ok (contact_type, organization)
  end.

(** Whether a row is the one that switches the context: two cells, the first
    with the text of the header. *)
Definition is_preferred_header (r : row) : bool :=
  match r with
  | [key_raw; _] => String.eqb (text key_raw) "Preferred mailing address"
  | _ => false
  end.

Fixpoint parse_rows (st : string * org_record) (rows : table)
  : result (string * org_record) :=
  match rows with
  | [] => Ok st
  | r :: rest => st' ← parse_row st r; parse_rows st' rest
  end.

(** One iteration of [for table in raw_tables]: [contact_type = 'hq'], then
    the rows. *)
Definition parse_table (organization : org_record) (t : table) : result org_record :=
  st ← parse_rows ("hq", organization) t; Ok (snd st).

Fixpoint parse_tables (organization : org_record) (raw_tables : form)
  : result org_record :=
  match raw_tables with
  | [] => Ok organization
  | t :: rest => o ← parse_table organization t; parse_tables o rest
  end.

(** Lines 118-152: from the result of [soup.select('form')] to the dict that
    is inserted.  [raw[0]] is an [IndexError] on a page without a form. *)
Definition parse_org (profile_code : string) (raw : soup)
  : result org_record :=
  match raw with
  | [] => Raise IndexError
  | form0 :: _ => parse_tables {[ "org_id" := Scalar profile_code ]} form0
  end.

(** ** The script's state and effects *)

Inductive pause : Type := Short | Long.

(** What a run does that can be observed from outside, in order: its log
    lines, its sleeps (the sampled durations are not modelled) and its HTTP
    requests. *)
Inductive event : Type :=
| LogExtracting
| LogLongBreak
| LogPausing
| LogGetting (id : string) (i : nat) (name : string)
| LogSkipping (id name : string)
| LogAllDone
| Sleep (p : pause)
| Get (profile_code : string).

(** The two TinyDB tables and the trace of the run so far. *)
Record world : Type := World {
  org_ids : list identity;
  orgs_full : list org_record;
  trace : list event
}.

(** A command of the script: it runs on a world and either returns or lets
    an exception escape, in both cases leaving a world behind. *)
Definition crawl (A : Type) : Type := world -> result A * world.

#[global] Instance crawl_ret : MRet crawl := fun _ a w => (Ok a, w).
#[global] Instance crawl_bind : MBind crawl := fun _ _ f m w =>
  match m w with
  | (Ok a, w') => f a w'
  | (Raise e, w') => (Raise e, w')
  end.

(** The world [w] after the events [evs]. *)
Definition logged (w : world) (evs : list event) : world :=
  World (org_ids w) (orgs_full w) (trace w ++ evs).

(** The world [w] after one more profile has been stored. *)
Definition stored (w : world) (doc : org_record) : world :=
  World (org_ids w) (orgs_full w ++ [doc]) (trace w).

Definition lift {A : Type} (r : result A) : crawl A := fun w => (r, w).

Definition emit (e : event) : crawl unit := fun w =>
  (Ok tt, World (org_ids w) (orgs_full w) (trace w ++ [e])).

(** [len(org_ids)] and [org_ids.all()] *)
Definition org_ids_len : crawl nat := fun w => (Ok (length (org_ids w)), w).
Definition org_ids_all : crawl (list identity) := fun w => (Ok (org_ids w), w).

(** [org_ids.insert_multiple(docs)] *)
Definition org_ids_insert_multiple (docs : list identity) : crawl unit := fun w =>
  (Ok tt, World (org_ids w ++ docs) (orgs_full w) (trace w)).

(** [orgs_full.insert(doc)] *)
Definition orgs_full_insert (doc : org_record) : crawl unit := fun w =>
  (Ok tt, World (org_ids w) (orgs_full w ++ [doc]) (trace w)).

(** The test of the query [q.org_id == id] on one document. *)
Definition org_id_is (id : string) (doc : org_record) : bool :=
  match doc !! "org_id" with
  | Some (Scalar s) => String.eqb s id
  | _ => false
  end.

(** [orgs_full.search(q.org_id == id)] *)
Definition orgs_full_search (id : string) : crawl (list org_record) := fun w =>
  (Ok (List.filter (org_id_is id) (orgs_full w)), w).

(** [for i, x in enumerate(l)], counting from [i]. *)
Fixpoint for_enumerate {A : Type} (loop_body : nat -> A -> crawl unit)
    (i : nat) (l : list A) : crawl unit :=
  match l with
  | [] => mret tt
  | x :: rest => loop_body i x;; for_enumerate loop_body (S i) rest
  end.

(** config.long_wait_gap *)
Definition long_wait_gap : nat := 100.

(** ** generate_list *)

(** [re.search(r"profileCode=(\d+)", s)], giving [group(1)] of the leftmost
    match. *)
Fixpoint search_profileCode (s : string) : option string :=
  match s with
  | EmptyString => None
  | String _ rest =>
      let digits := Py.take_digits (Py.drop 12 s) in
      if String.prefix "profileCode=" s && negb (String.eqb digits "")
      then Some digits
      else search_profileCode rest
  end.

(** One iteration of [for row in full_list_table.find_all('tr')].
    ['showProfileDetail' in None] is a [TypeError], and [.group(1)] on the
    [None] of a failed search an [AttributeError]. *)
Definition list_row_step (all_orgs : list identity) (first_column : list_row)
  : result (list identity) :=
  match first_column with
  | [] => Ok all_orgs
  | td0 :: _ =>
      match td0 with
      | None => Ok all_orgs
      | Some link =>
          match href link with
          | None => Raise TypeError
          | Some h =>
              if Py.contains "showProfileDetail" h then
                match search_profileCode h with
                | None => Raise AttributeError
                | Some profile_id =>
                    Ok (all_orgs ++ [Identity (atext link) profile_id])
                end
              else Ok all_orgs
          end
      end
  end.

Fixpoint list_rows (all_orgs : list identity) (rows : list_table)
  : result (list identity) :=
  match rows with
  | [] => Ok all_orgs
  | r :: rest => a ← list_row_step all_orgs r; list_rows a rest
  end.

Section Script.

(** What [select('#content table.result')] returns on the saved listing
    page, and what the site answers to the request for a profile code. *)
Variable list_html : list list_table.
Variable net : string -> reply.

Definition generate_list : crawl unit :=
  match list_html with
  | [] => lift (Raise IndexError)
  | full_list_table :: _ =>
      all_orgs ← lift (list_rows [] full_list_table);
      org_ids_insert_multiple all_orgs
  end.

(** [requests.get(url.format(id), headers=...)]; the user agent drawn for
    the request does not change what the script does with the answer. *)
Definition requests_get (id : string) : crawl response := fun w =>
  let w' := World (org_ids w) (orgs_full w) (trace w ++ [Get id]) in
  match net id with
  | Unreachable => (Raise ConnectionError, w')
  | Http r => (Ok r, w')
  end.

Definition get_parse_org (ident : identity) (i : nat) : crawl unit :=
  (if Nat.ltb 0 i then emit LogPausing;; emit (Sleep Short) else mret tt);;
  r ← requests_get (org_id ident);
  organization ← lift (parse_org (org_id ident) (body r));
  orgs_full_insert organization.

(** The body of the loop of [__main__]. *)
Definition visit (i : nat) (ident : identity) : crawl unit :=
  (if Nat.ltb 0 i && Nat.eqb (i mod long_wait_gap) 0
   then emit LogLongBreak;; emit (Sleep Long) else mret tt);;
  found ← orgs_full_search (org_id ident);
  if Nat.eqb (length found) 0 then
    emit (LogGetting (org_id ident) i (org_name ident));;
    get_parse_org ident i
  else emit (LogSkipping (org_id ident) (org_name ident)).

Definition main : crawl unit :=
  n ← org_ids_len;
  (if Nat.eqb n 0 then emit LogExtracting;; generate_list else mret tt);;
  all ← org_ids_all;
  for_enumerate visit 0 (firstn 2 all);;
  emit LogAllDone.

End Script.

(** ** Names for what the script does, used to state its properties *)

(** The events of get_parse_org up to and including its request. *)
Definition fetch_events (id : string) (i : nat) : list event :=
  (if Nat.ltb 0 i then [LogPausing; Sleep Short] else []) ++ [Get id].

(** The events of the loop body before it looks the entity up. *)
Definition break_events (i : nat) : list event :=
  if Nat.ltb 0 i && Nat.eqb (i mod long_wait_gap) 0
  then [LogLongBreak; Sleep Long] else [].

(** The completion check of the loop: some record answers the query. *)
Definition has_profile (id : string) (w : world) : bool :=
  negb (Nat.eqb (length (List.filter (org_id_is id) (orgs_full w))) 0).

(** How a run ends once its loop is over: the last log line after a loop
    that returned, the exception of a loop that did not. *)
Definition finish (r : result unit * world) : result unit * world :=
  match r with
  | (Ok _, w) => (Ok tt, logged w [LogAllDone])
  | (Raise e, w) => (Raise e, w)
  end.

(** The loop of [__main__] on the first two identities of the table. *)
Definition loop (net : string -> reply) (w : world) : result unit * world :=
  for_enumerate (visit net) 0 (firstn 2 (org_ids w)) w.

(** Lines 158-160, the step of a run before its loop: on an empty identity
    table the log line and generate_list, on any other table nothing. *)
Definition seeding (list_html : list list_table) (w : world)
  : result unit * world :=
  match org_ids w with
  | [] => generate_list list_html (logged w [LogExtracting])
  | _ :: _ => (Ok tt, w)
  end.

(** A site that leaves the identifier alone: whenever a page is parsed into a
    record, the record still carries the profile code it was asked for (no
    row of the page has a key that cleans to [org_id]). *)
Definition keeps_id (net : string -> reply) : Prop :=
  forall (id : string) (r : response) (o : org_record),
    net id = Http r -> parse_org id (body r) = Ok o ->
    o !! "org_id" = Some (Scalar id).

(** No two records of a table answer the same query [q.org_id == id]. *)
Definition distinct_ids (docs : list org_record) : Prop :=
  forall id : string, length (List.filter (org_id_is id) docs) <= 1.

(** An event that is not a request. *)
Definition quiet (e : event) : Prop :=
  match e with Get _ => False | _ => True end.

(** Whether every character of a string passes a test. *)
Fixpoint all_chars (p : ascii -> bool) (s : string) : bool :=
  match s with
  | EmptyString => true
  | String c r => p c && all_chars p r
  end.

(** The characters of an identifier in lower case: a digit, a small letter
    or the underscore. *)
Definition keychar (c : ascii) : bool :=
  Py.isword c && negb (Py.between 65 90 c).

(** A non-empty string of digits. *)
Definition numeric (s : string) : bool :=
  all_chars Py.isdigit s && negb (String.eqb s "").

(** config.BASE_URL and the address that get_parse_org formats for a profile
    code (lines 112-114). *)
Definition BASE_URL : string := "http://esango.un.org/civilsociety/".
Definition profile_url (profile_code : string) : string :=
  BASE_URL +:+ "showProfileDetail.do?method=printProfile"
  +:+ "&tab=1&profileCode=" +:+ profile_code +:+ "&sessionCheck=false".

(** A heading of the expertise cell that clean_key accepts without a
    contact type: its key is not a contact key.  List items always pass. *)
Definition heading_ok (e : element) : bool :=
  match name e with
  | B => negb (Py.in_list (key_base (etext e)) contact_keys)
  | LI => true
  end.

Definition is_li (e : element) : bool :=
  match name e with LI => true | B => false end.

(** A row of exactly two cells. *)
Definition two_cells (r : row) : bool := Nat.eqb (length r) 2.

(** The key a two-cell row asks for, before any prefix. *)
Definition row_base (r : row) : option string :=
  match r with
  | [key_raw; _] => Some (key_base (text key_raw))
  | _ => None
  end.

(** What follows the digits that a greedy [\d+] takes does not start with a
    digit. *)
Definition starts_without_digit (s : string) : bool :=
  match s with
  | EmptyString => true
  | String c _ => negb (Py.isdigit c)
  end.

(** A listing row whose first cell holds a link. *)
Definition has_link (r : list_row) : bool :=
  match r with
  | Some _ :: _ => true
  | _ => false
  end.

(** Whether the elements of an expertise cell begin with a list item. *)
Definition starts_with_item (elements : list element) : bool :=
  match elements with
  | e :: _ => is_li e
  | [] => false
  end.

(** The cleaned texts of some list items. *)
Definition item_texts (items : list element) : list string :=
  List.map (fun li => clean_value_text (etext li)) items.

(** The last character of a string. *)
Fixpoint last_char (s : string) : option ascii :=
  match s with
  | EmptyString => None
  | String c r =>
      match last_char r with
      | None => Some c
      | Some d => Some d
      end
  end.

(** The number of requests among some events. *)
Definition is_get (e : event) : bool :=
  match e with Get _ => true | _ => false end.
Definition requests (evs : list event) : nat :=
  length (List.filter is_get evs).

(** An event that is a log line: neither a sleep nor a request. *)
Definition is_log (e : event) : bool :=
  match e with
  | Sleep _ | Get _ => false
  | _ => true
  end.

(** The events of the loop body on one entity: the long break when it is
    due, then the skip line for a completed entity, or the line, the pause
    and the request for one that is not. *)
Definition visit_events (i : nat) (ident : identity) (completed : bool)
  : list event :=
  break_events i ++
  (if completed then [LogSkipping (org_id ident) (org_name ident)]
   else LogGetting (org_id ident) i (org_name ident)
        :: fetch_events (org_id ident) i).

(** * Properties *)

(** ** Unfolding the monads *)

Ltac unfold_result :=
  unfold mbind, mret, result_bind, result_ret in *.

Ltac unfold_crawl :=
  unfold mbind, mret, crawl_bind, crawl_ret, lift, emit, org_ids_len,
    org_ids_all, org_ids_insert_multiple, orgs_full_insert, orgs_full_search,
    requests_get in *.

Lemma in_list_true (x : string) (l : list string) :
  Py.in_list x l = true <-> In x l.
Proof.
  unfold Py.in_list. rewrite existsb_exists. split.
  - intros (y & Hy & E). apply String.eqb_eq in E. now subst.
  - intros H. exists x. split; [assumption | apply String.eqb_refl].
Qed.

Lemma in_list_false (x y : string) (l : list string) :
  Py.in_list x l = false -> In y l -> x <> y.
Proof.
  intros Hf Hy ->. apply in_list_true in Hy. congruence.
Qed.

(** ** Key canonicalisation *)

(** C7. Key canonicalisation on the labels the specification lists:
    "Telephone:  " becomes "telephone", "Fax Number" becomes "fax_number",
    "Year Founded YYYY" becomes "year_founded", and "Email" becomes
    "preferred_email" in the preferred context and "hq_email" in the hq
    context. *)
Theorem clean_key_examples :
  clean_key "Telephone:  " (Some "hq") = Ok "telephone" /\
  clean_key "Telephone:  " (Some "preferred") = Ok "telephone" /\
  clean_key "Fax Number" (Some "hq") = Ok "fax_number" /\
  clean_key "Fax Number" (Some "preferred") = Ok "fax_number" /\
  clean_key "Year Founded YYYY" (Some "hq") = Ok "year_founded" /\
  clean_key "Year Founded YYYY" (Some "preferred") = Ok "year_founded" /\
  clean_key "Email" (Some "preferred") = Ok "preferred_email" /\
  clean_key "Email" (Some "hq") = Ok "hq_email".
Proof. repeat split; vm_compute; reflexivity. Qed.

(** A key that is not a contact key comes out of [clean_key] as its base,
    whatever the context. *)
Lemma clean_key_plain (cell : string) (ct : option string) :
  Py.in_list (key_base cell) contact_keys = false ->
  clean_key cell ct = Ok (key_base cell).
Proof. intros H. unfold clean_key. now rewrite H. Qed.


(** ** The sectioned list *)

(** C5. A value cell of the expertise field whose first [b] or [li] element
    is a list item: the specification asks for a section named by the empty
    string; clean_activity_list looks the empty key up in the still empty
    dict and lets a KeyError escape. *)
Theorem list_item_before_heading_raises (cell_text item : string)
    (rest : list element) :
  clean_activity_list (Cell cell_text (Element LI item :: rest))
  = Raise (KeyError "").
Proof. reflexivity. Qed.

(** After a heading the items are collected under its cleaned name. *)
Example clean_activity_list_health :
  clean_activity_list
    (Cell "" [Element B "Health"; Element LI "Nutrition";
              Element LI "Sanitation"; Element B "Education";
              Element LI "Literacy"])
  = Ok (<["education" := ["Literacy"]]>
          (<["health" := ["Nutrition"; "Sanitation"]]> ∅)).
Proof. vm_compute. reflexivity. Qed.

(** ** Faux section headers *)

(** C8. A two-cell row whose canonical key is one of the two faux section
    headers leaves the organization dict as it was: no key is added and no
    value is stored for the row. *)
Theorem faux_header_row_suppressed (contact_type : string)
    (organization : org_record) (key_raw value_raw : cell) (key : string) :
  let contact_type' :=
    if String.eqb (text key_raw) "Preferred mailing address"
    then "preferred" else contact_type in
  clean_key (text key_raw) (Some contact_type') = Ok key ->
  In key faux_contact_headers ->
  parse_row (contact_type, organization) [key_raw; value_raw]
  = Ok (contact_type', organization).
Proof.
  intros ct' Hkey Hfaux. apply in_list_true in Hfaux.
  unfold parse_row. fold ct'. rewrite Hkey. unfold_result.
  unfold store_row. now rewrite Hfaux.
Qed.

Lemma faux_header_row_suppressed_witness :
  parse_row ("hq", ∅) [Cell "Headquarters address" []; Cell "x" []]
  = Ok ("hq", ∅).
Proof.
  apply (faux_header_row_suppressed "hq" ∅ (Cell "Headquarters address" [])
           (Cell "x" []) "headquarters_address").
  - vm_compute. reflexivity.
  - simpl. left. reflexivity.
Defined.

(** A row that does not have exactly two cells changes nothing. *)
Lemma parse_row_other_shape (st : string * org_record) (r : row) :
  length r <> 2 -> parse_row st r = Ok st.
Proof.
  intros Hlen. destruct st as [ct o].
  destruct r as [|k [|v [|x r]]]; try reflexivity. now elim Hlen.
Qed.

Lemma parse_row_two (ct : string) (o : org_record) (k v : cell) :
  parse_row (ct, o) [k; v] =
  let ct' := if String.eqb (text k) "Preferred mailing address"
             then "preferred" else ct in
  key ← clean_key (text k) (Some ct'); store_row ct' o key v.
Proof. reflexivity. Qed.

(** Whatever a row is, it never stores anything under a faux header. *)
Lemma store_row_faux_absent (ct : string) (o : org_record) (key : string)
    (v : cell) (st' : string * org_record) (h : string) :
  In h faux_contact_headers ->
  store_row ct o key v = Ok st' ->
  o !! h = None -> snd st' !! h = None.
Proof.
  intros Hh Hrow Hnone. unfold store_row in Hrow.
  destruct (Py.in_list key faux_contact_headers) eqn:Hf; cbn [negb] in Hrow.
  - inversion Hrow; subst. exact Hnone.
  - pose proof (in_list_false _ _ _ Hf Hh) as Hne.
    destruct (Py.in_list key list_only_fields).
    + inversion Hrow; subst. cbn [snd]. now rewrite lookup_insert_ne.
    + destruct (String.eqb key _).
      * destruct (clean_activity_list v); unfold_result; [|discriminate].
        inversion Hrow; subst. cbn [snd]. now rewrite lookup_insert_ne.
      * inversion Hrow; subst. cbn [snd]. now rewrite lookup_insert_ne.
Qed.

Lemma parse_row_faux_absent (st st' : string * org_record) (r : row)
    (h : string) :
  In h faux_contact_headers ->
  parse_row st r = Ok st' ->
  snd st !! h = None -> snd st' !! h = None.
Proof.
  intros Hh Hrow Hnone. destruct st as [ct o].
  destruct (Nat.eq_dec (length r) 2) as [Hlen|Hlen].
  - destruct r as [|k [|v [|x r]]]; try discriminate.
    rewrite parse_row_two in Hrow. cbv zeta in Hrow.
    destruct (clean_key _ _) as [key|e]; unfold_result; [|discriminate].
    eapply store_row_faux_absent; eauto.
  - rewrite parse_row_other_shape in Hrow by assumption.
    inversion Hrow; subst. exact Hnone.
Qed.

Lemma parse_rows_faux_absent (rows : table) (st st' : string * org_record)
    (h : string) :
  In h faux_contact_headers ->
  parse_rows st rows = Ok st' ->
  snd st !! h = None -> snd st' !! h = None.
Proof.
  intros Hh. revert st. induction rows as [|r rows IH]; intros st Hrows Hnone.
  - simpl in Hrows. now inversion Hrows; subst.
  - simpl in Hrows. destruct (parse_row st r) as [st1|e] eqn:Hr;
      unfold_result; [|discriminate].
    eapply IH; [exact Hrows|]. eapply parse_row_faux_absent; eauto.
Qed.

Lemma parse_tables_faux_absent (tables : form) (o o' : org_record)
    (h : string) :
  In h faux_contact_headers ->
  parse_tables o tables = Ok o' ->
  o !! h = None -> o' !! h = None.
Proof.
  intros Hh. revert o. induction tables as [|t tables IH]; intros o Ht Hnone.
  - simpl in Ht. now inversion Ht; subst.
  - simpl in Ht. unfold parse_table in Ht.
    destruct (parse_rows ("hq", o) t) as [st1|e] eqn:Hr;
      unfold_result; [|discriminate].
    eapply IH; [exact Ht|].
    eapply (parse_rows_faux_absent t ("hq", o) st1); eauto.
Qed.

(** No stored record has a faux header among its keys. *)
Theorem faux_header_never_a_key (profile_code : string) (raw : soup)
    (organization : org_record) (h : string) :
  parse_org profile_code raw = Ok organization ->
  In h faux_contact_headers ->
  organization !! h = None.
Proof.
  intros Hp Hh. destruct raw as [|form0 raw]; [discriminate|].
  simpl in Hp. eapply parse_tables_faux_absent; eauto.
  destruct Hh as [<-|[<-|[]]]; reflexivity.
Qed.

(** ** The contact context *)

Lemma store_row_context (ct ct' : string) (o o' : org_record) (key : string)
    (v : cell) :
  store_row ct o key v = Ok (ct', o') -> ct' = ct.
Proof.
  unfold store_row. intros H.
  destruct (negb _); [|now inversion H].
  destruct (Py.in_list _ _); [now inversion H|].
  destruct (String.eqb _ _); [|now inversion H].
  destruct (clean_activity_list v); unfold_result; now inversion H.
Qed.

Lemma parse_row_context (ct ct' : string) (o o' : org_record) (r : row) :
  parse_row (ct, o) r = Ok (ct', o') ->
  ct' = if is_preferred_header r then "preferred" else ct.
Proof.
  intros H. destruct (Nat.eq_dec (length r) 2) as [Hlen|Hlen].
  - destruct r as [|k [|v [|x r]]]; try discriminate.
    rewrite parse_row_two in H. cbv zeta in H.
    destruct (clean_key _ _) as [key|e]; unfold_result; [|discriminate].
    apply store_row_context in H. exact H.
  - rewrite parse_row_other_shape in H by assumption.
    inversion H; subst.
    destruct r as [|k [|v [|x r]]]; try reflexivity. now elim Hlen.
Qed.







(** ** One entity: get_parse_org and the loop body *)

(** What get_parse_org does, case by case. *)
Lemma get_parse_org_run (net : string -> reply) (ident : identity) (i : nat)
    (w : world) :
  get_parse_org net ident i w =
  let w' := logged w (fetch_events (org_id ident) i) in
  match net (org_id ident) with
  | Unreachable => (Raise ConnectionError, w')
  | Http r =>
      match parse_org (org_id ident) (body r) with
      | Ok organization => (Ok tt, stored w' organization)
      | Raise e => (Raise e, w')
      end
  end.
Proof.
  unfold get_parse_org, fetch_events, logged, stored. unfold_crawl.
  destruct (Nat.ltb 0 i); cbn [org_ids orgs_full trace app];
    rewrite <- ?app_assoc; cbn [app];
    destruct (net (org_id ident)) as [|r]; try reflexivity;
    destruct (parse_org (org_id ident) (body r)); reflexivity.
Qed.

Lemma has_profile_logged (id : string) (w : world) (evs : list event) :
  has_profile id (logged w evs) = has_profile id w.
Proof. reflexivity. Qed.

Lemma visit_run (net : string -> reply) (i : nat) (ident : identity)
    (w : world) :
  visit net i ident w =
  if has_profile (org_id ident) w then
    (Ok tt, logged w (break_events i
                        ++ [LogSkipping (org_id ident) (org_name ident)]))
  else
    get_parse_org net ident i
      (logged w (break_events i
                   ++ [LogGetting (org_id ident) i (org_name ident)])).
Proof.
  unfold visit, break_events, has_profile, logged. unfold_crawl.
  destruct (Nat.ltb 0 i && Nat.eqb (i mod long_wait_gap) 0);
    cbn [org_ids orgs_full trace app];
    destruct (Nat.eqb (length _) 0);
    cbn [negb org_ids orgs_full trace app]; rewrite <- ?app_assoc;
    reflexivity.
Qed.

(** C3, as the code has it.  get_parse_org makes one request.  When the
    request itself fails, the exception escapes to the caller and nothing is
    stored.  When a response comes back, its status is not looked at: the
    body is parsed and normalised whatever the status, the record is stored
    when that succeeds, and an exception of the parsing escapes
    otherwise. *)
Theorem fetch_outcome (net : string -> reply) (ident : identity) (i : nat)
    (w : world) :
  get_parse_org net ident i w =
  let w' := logged w (fetch_events (org_id ident) i) in
  match net (org_id ident) with
  | Unreachable => (Raise ConnectionError, w')
  | Http (Response _ document) =>
      match parse_org (org_id ident) document with
      | Ok organization => (Ok tt, stored w' organization)
      | Raise e => (Raise e, w')
      end
  end.
Proof.
  rewrite get_parse_org_run. cbv zeta.
  destruct (net (org_id ident)) as [|[status document]]; reflexivity.
Qed.

(** C3, as the specification words it, fails: the body of a 404 response is
    normalised and stored like any other, and no error is raised. *)
Lemma non_success_body_is_stored :
  get_parse_org
    (fun _ => Http (Response 404 [[ [[Cell "Email" []; Cell "a@b.org" []]] ]]))
    (Identity "A" "1") 0 (World [] [] [])
  = (Ok tt,
     World []
       [<["hq_email" := Scalar "a@b.org"]> {[ "org_id" := Scalar "1" ]}]
       [Get "1"]).
Proof. vm_compute. reflexivity. Qed.

(** An exception of get_parse_org leaves both tables as they were. *)
Lemma get_parse_org_raise (net : string -> reply) (ident : identity)
    (i : nat) (w w' : world) (e : exn) :
  get_parse_org net ident i w = (Raise e, w') ->
  orgs_full w' = orgs_full w /\ org_ids w' = org_ids w.
Proof.
  rewrite get_parse_org_run. cbv zeta.
  destruct (net (org_id ident)) as [|r].
  - intros H. inversion H; subst. split; reflexivity.
  - destruct (parse_org (org_id ident) (body r)); intros H;
      inversion H; subst. split; reflexivity.
Qed.

(** A return of get_parse_org has appended exactly one record, the one
    parsed from the body. *)
Lemma get_parse_org_ok (net : string -> reply) (ident : identity)
    (i : nat) (w w' : world) :
  get_parse_org net ident i w = (Ok tt, w') ->
  exists r organization,
    net (org_id ident) = Http r /\
    parse_org (org_id ident) (body r) = Ok organization /\
    orgs_full w' = orgs_full w ++ [organization] /\
    org_ids w' = org_ids w.
Proof.
  rewrite get_parse_org_run. cbv zeta.
  destruct (net (org_id ident)) as [|r]; [discriminate|].
  destruct (parse_org (org_id ident) (body r)) as [o|e] eqn:Hp;
    intros H; inversion H; subst.
  exists r, o. repeat split; assumption || reflexivity.
Qed.

Lemma visit_raise (net : string -> reply) (i : nat) (ident : identity)
    (w w' : world) (e : exn) :
  visit net i ident w = (Raise e, w') ->
  has_profile (org_id ident) w = false /\
  orgs_full w' = orgs_full w /\ org_ids w' = org_ids w.
Proof.
  rewrite visit_run.
  destruct (has_profile (org_id ident) w) eqn:Hhas; [discriminate|].
  intros H. apply get_parse_org_raise in H. cbn in H. tauto.
Qed.

(** C10. When the processing of an entity ends with an exception (the
    request, the parsing or the normalisation), the profile table is what it
    was before: the insert is the last step of get_parse_org, so nothing
    partial is stored, and the completion check still finds no record for
    the entity. *)
Theorem failure_stores_nothing (net : string -> reply) (i : nat)
    (ident : identity) (w w' : world) (e : exn) :
  visit net i ident w = (Raise e, w') ->
  orgs_full w' = orgs_full w /\
  org_ids w' = org_ids w /\
  has_profile (org_id ident) w' = false /\
  fst (orgs_full_search (org_id ident) w') = Ok [].
Proof.
  intros H. apply visit_raise in H. destruct H as (Hhas & Hfull & Hids).
  assert (Hhas' : has_profile (org_id ident) w' = false).
  { unfold has_profile in *. now rewrite Hfull. }
  repeat split; try assumption.
  unfold orgs_full_search. cbn [fst]. f_equal.
  unfold has_profile in Hhas'.
  destruct (List.filter _ _); [reflexivity | discriminate].
Qed.

Lemma failure_stores_nothing_witness :
  orgs_full (World [Identity "A" "1"] [] [LogGetting "1" 0 "A"; Get "1"])
  = orgs_full (World [Identity "A" "1"] [] []) /\
  org_ids (World [Identity "A" "1"] [] [LogGetting "1" 0 "A"; Get "1"])
  = org_ids (World [Identity "A" "1"] [] []) /\
  has_profile "1"
    (World [Identity "A" "1"] [] [LogGetting "1" 0 "A"; Get "1"]) = false /\
  fst (orgs_full_search "1"
         (World [Identity "A" "1"] [] [LogGetting "1" 0 "A"; Get "1"]))
  = Ok [].
Proof.
  apply (failure_stores_nothing
           (fun _ : string =>
              Http (Response 200
                      [[ [[Cell "Fax" []; Cell "12" []];
                          [Cell "Areas of expertise / Fields of activity" [];
                           Cell "" [Element LI "Nutrition"]]] ]]))
           0 (Identity "A" "1") (World [Identity "A" "1"] [] [])
           (World [Identity "A" "1"] [] [LogGetting "1" 0 "A"; Get "1"])
           (KeyError "")).
  vm_compute. reflexivity.
Defined.

(** ** The run *)

(** With identities in the table, a run is its loop: generate_list is not
    called. *)
Lemma main_seeded (list_html : list list_table) (net : string -> reply)
    (w : world) :
  org_ids w <> [] -> main list_html net w = finish (loop net w).
Proof.
  intros Hne.
  assert (Hlen : Nat.eqb (length (org_ids w)) 0 = false).
  { destruct (org_ids w); [now elim Hne | reflexivity]. }
  unfold main, finish, loop. unfold_crawl. rewrite Hlen.
  destruct (for_enumerate (visit net) 0 (firstn 2 (org_ids w)) w)
    as [[[]|e] w1]; reflexivity.
Qed.

(** With an empty table, a run first logs and calls generate_list. *)
Lemma main_unseeded (list_html : list list_table) (net : string -> reply)
    (w : world) :
  org_ids w = [] ->
  main list_html net w =
  match generate_list list_html (logged w [LogExtracting]) with
  | (Ok _, w1) => finish (loop net w1)
  | (Raise e, w1) => (Raise e, w1)
  end.
Proof.
  intros Hids.
  assert (Hlen : Nat.eqb (length (org_ids w)) 0 = true) by now rewrite Hids.
  unfold main, finish, loop, logged. unfold_crawl. rewrite Hlen.
  destruct (generate_list list_html _) as [[[]|e] w1]; [|reflexivity].
  destruct (for_enumerate (visit net) 0 (firstn 2 (org_ids w1)) w1)
    as [[[]|e] w2]; reflexivity.
Qed.

Lemma for_enumerate_app {A : Type} (f : nat -> A -> crawl unit)
    (pre post : list A) (i : nat) (w : world) :
  for_enumerate f i (pre ++ post) w =
  match for_enumerate f i pre w with
  | (Ok _, w1) => for_enumerate f (i + length pre) post w1
  | (Raise e, w1) => (Raise e, w1)
  end.
Proof.
  revert i w. induction pre as [|x pre IH]; intros i w.
  - cbn. now rewrite Nat.add_0_r.
  - cbn [app for_enumerate length]. unfold_crawl.
    destruct (f i x w) as [[[]|e] w1]; [|reflexivity].
    rewrite IH. now rewrite Nat.add_succ_r.
Qed.

(** C9. On an empty identity table and a listing page in which the selector
    of the result table matches nothing, the run ends in generate_list with
    the IndexError of [[0]]: no identity has been inserted, no request has
    been made, and the only trace is the log line of the seeding. *)
Theorem missing_result_table_aborts (net : string -> reply) (w : world) :
  org_ids w = [] ->
  main [] net w
  = (Raise IndexError, World [] (orgs_full w) (trace w ++ [LogExtracting])).
Proof.
  intros Hids. rewrite main_unseeded by assumption.
  unfold generate_list, lift, logged. now rewrite Hids.
Qed.

Lemma missing_result_table_aborts_witness :
  main [] (fun _ => Unreachable) (World [] [] [])
  = (Raise IndexError, World [] [] [LogExtracting]).
Proof.
  apply (missing_result_table_aborts (fun _ => Unreachable) (World [] [] [])).
  reflexivity.
Defined.

(** A run is its seeding step and then, when that returned, its loop. *)
Lemma main_run (list_html : list list_table) (net : string -> reply)
    (w : world) :
  main list_html net w =
  match seeding list_html w with
  | (Ok _, w0) => finish (loop net w0)
  | (Raise e, w0) => (Raise e, w0)
  end.
Proof.
  unfold seeding. destruct (org_ids w) as [|a l] eqn:Hids.
  - now apply main_unseeded.
  - apply main_seeded. rewrite Hids. discriminate.
Qed.

(** C6, as the code has it.  Nothing in the script catches an exception.
    In every run, whether it finds the identity table filled or has just
    filled it with generate_list, an exception that escapes the processing
    of one entity of the queue leaves the loop and ends the run at that
    entity: the run ends with that exception in the world the entity left,
    in which nothing has been stored for it, and the entities after it have
    been neither fetched nor skipped. *)
Theorem exception_ends_run (list_html : list list_table)
    (net : string -> reply) (w w0 w1 w2 : world) (pre post : list identity)
    (ident : identity) (e : exn) :
  seeding list_html w = (Ok tt, w0) ->
  firstn 2 (org_ids w0) = pre ++ ident :: post ->
  for_enumerate (visit net) 0 pre w0 = (Ok tt, w1) ->
  visit net (length pre) ident w1 = (Raise e, w2) ->
  main list_html net w = (Raise e, w2) /\ orgs_full w2 = orgs_full w1.
Proof.
  intros Hseed Hsplit Hpre Hvisit. split.
  - rewrite main_run, Hseed. unfold finish, loop.
    rewrite Hsplit, for_enumerate_app, Hpre. cbn [for_enumerate Nat.add].
    unfold_crawl. now rewrite Hvisit.
  - apply visit_raise in Hvisit. tauto.
Qed.

Lemma exception_ends_run_witness :
  main
    [[[Some (Anchor (Some "showProfileDetail.do?profileCode=1") "A")];
      [Some (Anchor (Some "showProfileDetail.do?profileCode=2") "B")]]]
    (fun id =>
       if String.eqb id "1" then Http (Response 200 [[]])
       else Http (Response 200 []))
    (World [] [] [])
  = (Raise IndexError,
     World [Identity "A" "1"; Identity "B" "2"]
       [{[ "org_id" := Scalar "1" ]}]
       [LogExtracting; LogGetting "1" 0 "A"; Get "1";
        LogGetting "2" 1 "B"; LogPausing; Sleep Short; Get "2"])
  /\ orgs_full
       (World [Identity "A" "1"; Identity "B" "2"]
          [{[ "org_id" := Scalar "1" ]}]
          [LogExtracting; LogGetting "1" 0 "A"; Get "1";
           LogGetting "2" 1 "B"; LogPausing; Sleep Short; Get "2"])
     = orgs_full
         (World [Identity "A" "1"; Identity "B" "2"]
            [{[ "org_id" := Scalar "1" ]}]
            [LogExtracting; LogGetting "1" 0 "A"; Get "1"]).
Proof.
  apply (exception_ends_run _ _ (World [] [] [])
           (World [Identity "A" "1"; Identity "B" "2"] [] [LogExtracting])
           _ _ [Identity "A" "1"] [] (Identity "B" "2") IndexError).
  - vm_compute. reflexivity.
  - reflexivity.
  - vm_compute. reflexivity.
  - vm_compute. reflexivity.
Defined.

(** C6, as the specification words it, fails: a page of an unexpected shape,
    one without a form, ends the run with the IndexError of [raw[0]] at the
    first entity, and the second entity of the queue, whose page is in
    order, is neither fetched nor stored. *)
Lemma anomaly_blocks_queue :
  main []
    (fun id =>
       if String.eqb id "1" then Http (Response 200 [])
       else Http (Response 200 [[ [[Cell "Fax" []; Cell "12" []]] ]]))
    (World [Identity "A" "1"; Identity "B" "2"] [] [])
  = (Raise IndexError,
     World [Identity "A" "1"; Identity "B" "2"] []
       [LogGetting "1" 0 "A"; Get "1"]).
Proof. vm_compute. reflexivity. Qed.

(** C1. A table of three identities, none of them with a profile, and a site
    that answers every request: the loop runs over [org_ids.all()[0:2]], so
    the run logs its last line after two entities, and the third has been
    neither skipped nor fetched. *)
Theorem main_stops_after_two :
  main [] (fun _ => Http (Response 200 [[]]))
    (World [Identity "A" "1"; Identity "B" "2"; Identity "C" "3"] [] [])
  = (Ok tt,
     World [Identity "A" "1"; Identity "B" "2"; Identity "C" "3"]
       [{[ "org_id" := Scalar "1" ]}; {[ "org_id" := Scalar "2" ]}]
       [LogGetting "1" 0 "A"; Get "1";
        LogGetting "2" 1 "B"; LogPausing; Sleep Short; Get "2";
        LogAllDone]).
Proof. vm_compute. reflexivity. Qed.

(** C2. A page with a row labelled "Org ID": its key is [org_id], and its
    value replaces the profile code the record was started with.  The
    completion check of the second run finds no record for the entity,
    fetches it again and stores a second record with the same [org_id]. *)
Theorem second_run_stores_duplicate :
  main [] (fun _ => Http (Response 200 [[ [[Cell "Org ID" []; Cell "9" []]] ]]))
    (World [Identity "A" "1"] [] [])
  = (Ok tt,
     World [Identity "A" "1"] [{[ "org_id" := Scalar "9" ]}]
       [LogGetting "1" 0 "A"; Get "1"; LogAllDone])
  /\
  main [] (fun _ => Http (Response 200 [[ [[Cell "Org ID" []; Cell "9" []]] ]]))
    (World [Identity "A" "1"] [{[ "org_id" := Scalar "9" ]}] [])
  = (Ok tt,
     World [Identity "A" "1"]
       [{[ "org_id" := Scalar "9" ]}; {[ "org_id" := Scalar "9" ]}]
       [LogGetting "1" 0 "A"; Get "1"; LogAllDone]).
Proof. split; vm_compute; reflexivity. Qed.

(** ** Resuming: what holds when the identifier is left alone *)

(** A property of the world that every command of a run keeps is kept by
    the run. *)
Lemma for_enumerate_invariant {A : Type} (P : world -> Prop)
    (f : nat -> A -> crawl unit) :
  (forall i x w r w', P w -> f i x w = (r, w') -> P w') ->
  forall l i w r w', P w -> for_enumerate f i l w = (r, w') -> P w'.
Proof.
  intros Hf. induction l as [|x l IH]; intros i w r w' HP Hrun.
  - cbn in Hrun. inversion Hrun; subst. exact HP.
  - cbn [for_enumerate] in Hrun. unfold_crawl.
    destruct (f i x w) as [[[]|e] w1] eqn:Hx.
    + eapply IH; [|exact Hrun]. eapply Hf; eauto.
    + inversion Hrun; subst. eapply Hf; eauto.
Qed.

Lemma generate_list_effect (list_html : list list_table) (w w' : world)
    (r : result unit) :
  generate_list list_html w = (r, w') ->
  w' = w \/ exists ids, w' = World (org_ids w ++ ids) (orgs_full w) (trace w).
Proof.
  unfold generate_list. destruct list_html as [|t l].
  - unfold lift. intros H. inversion H. now left.
  - unfold_crawl. destruct (list_rows [] t) as [ids|e]; intros H;
      inversion H; subst; [right; now exists ids | now left].
Qed.

Lemma main_invariant (P : world -> Prop) (list_html : list list_table)
    (net : string -> reply) :
  (forall w e, quiet e -> P w -> P (logged w [e])) ->
  (forall w ids, P w -> P (World (org_ids w ++ ids) (orgs_full w) (trace w))) ->
  (forall i x w r w', P w -> visit net i x w = (r, w') -> P w') ->
  forall w r w', P w -> main list_html net w = (r, w') -> P w'.
Proof.
  intros Hlog Hseed Hvisit w r w' HP Hrun.
  assert (Hloop : forall w0 r0 w1, P w0 -> finish (loop net w0) = (r0, w1)
                                   -> P w1).
  { intros w0 r0 w1 HP0. unfold finish, loop.
    destruct (for_enumerate _ _ _ _) as [[[]|e] w2] eqn:Hfor; intros H;
      inversion H; subst;
      pose proof (for_enumerate_invariant P _ Hvisit _ _ _ _ _ HP0 Hfor);
      [apply Hlog; [exact I | assumption] | assumption]. }
  destruct (org_ids w) as [|a l] eqn:Hids.
  - rewrite main_unseeded in Hrun by assumption.
    destruct (generate_list list_html _) as [r1 w1] eqn:Hgen.
    assert (HP1 : P w1).
    { apply generate_list_effect in Hgen. destruct Hgen as [->|[ids ->]].
      - apply Hlog; [exact I | assumption].
      - apply (Hseed (logged w [LogExtracting])).
        apply Hlog; [exact I | assumption]. }
    destruct r1 as [[]|e].
    + eapply Hloop; eauto.
    + inversion Hrun; subst. assumption.
  - rewrite main_seeded in Hrun by (rewrite Hids; discriminate).
    eapply Hloop; eauto.
Qed.

Lemma org_id_is_lookup (id id' : string) (o : org_record) :
  o !! "org_id" = Some (Scalar id) ->
  org_id_is id' o = String.eqb id id'.
Proof. intros H. unfold org_id_is. now rewrite H. Qed.

(** What the loop body can do to the world. *)
Lemma visit_effect (net : string -> reply) (i : nat) (ident : identity)
    (w w' : world) (r : result unit) :
  visit net i ident w = (r, w') ->
  org_ids w' = org_ids w /\
  (orgs_full w' = orgs_full w \/
   has_profile (org_id ident) w = false /\
   exists rr o, net (org_id ident) = Http rr /\
                parse_org (org_id ident) (body rr) = Ok o /\
                orgs_full w' = orgs_full w ++ [o]) /\
  exists evs, trace w' = trace w ++ evs /\
              forall id, In (Get id) evs ->
                         id = org_id ident /\ has_profile id w = false.
Proof.
  rewrite visit_run.
  assert (Hbreak : forall id, ~ In (Get id) (break_events i)).
  { intros id. unfold break_events.
    destruct (_ && _); cbn; intuition discriminate. }
  destruct (has_profile (org_id ident) w) eqn:Hhas.
  - intros H. inversion H; subst. cbn. repeat split; [now left|].
    eexists; split; [reflexivity|]. intros id Hin.
    apply in_app_or in Hin. destruct Hin as [Hin|[Hin|[]]];
      [now apply Hbreak in Hin | discriminate].
  - rewrite get_parse_org_run. cbv zeta.
    assert (Hev : forall id,
      In (Get id) ((break_events i
                      ++ [LogGetting (org_id ident) i (org_name ident)])
                   ++ fetch_events (org_id ident) i) ->
      id = org_id ident /\ has_profile id w = false).
    { intros id Hin. unfold fetch_events in Hin.
      repeat (apply in_app_or in Hin; destruct Hin as [Hin|Hin]).
      - now apply Hbreak in Hin.
      - destruct Hin as [Hin|[]]; discriminate.
      - destruct (Nat.ltb 0 i); cbn in Hin; intuition discriminate.
      - destruct Hin as [Hin|[]]. inversion Hin; subst. now split. }
    destruct (net (org_id ident)) as [|rr] eqn:Hnet.
    + intros H. inversion H; subst. cbn. repeat split; [now left|].
      eexists; split; [now rewrite <- app_assoc | exact Hev].
    + destruct (parse_org (org_id ident) (body rr)) as [o|e] eqn:Hp;
        intros H; inversion H; subst; cbn; repeat split.
      * right. split; [reflexivity|]. now exists rr, o.
      * eexists; split; [now rewrite <- app_assoc | exact Hev].
      * now left.
      * eexists; split; [now rewrite <- app_assoc | exact Hev].
Qed.

Lemma visit_distinct (net : string -> reply) (i : nat) (ident : identity)
    (w w' : world) (r : result unit) :
  keeps_id net ->
  distinct_ids (orgs_full w) ->
  visit net i ident w = (r, w') ->
  distinct_ids (orgs_full w').
Proof.
  intros Hnet Hd Hrun. apply visit_effect in Hrun.
  destruct Hrun as (_ & [-> | (Hhas & rr & o & Hrr & Hp & ->)] & _);
    [assumption|].
  pose proof (Hnet _ _ _ Hrr Hp) as Ho.
  intros id. rewrite List.filter_app, length_app. cbn [List.filter].
  rewrite (org_id_is_lookup _ id _ Ho).
  destruct (String.eqb (org_id ident) id) eqn:E.
  - apply String.eqb_eq in E. subst id. unfold has_profile in Hhas.
    apply negb_false_iff, Nat.eqb_eq in Hhas. rewrite Hhas. cbn. lia.
  - cbn. specialize (Hd id). lia.
Qed.

(** Two runs on the same tables against a site that leaves the identifier
    alone: a profile table without two records of the same [org_id] is still
    one after the second run, however the runs end. *)
Theorem two_runs_no_duplicate (list_html : list list_table)
    (net : string -> reply) (w w1 w2 : world) (r1 r2 : result unit) :
  keeps_id net ->
  distinct_ids (orgs_full w) ->
  main list_html net w = (r1, w1) ->
  main list_html net w1 = (r2, w2) ->
  distinct_ids (orgs_full w1) /\ distinct_ids (orgs_full w2).
Proof.
  intros Hnet Hd H1 H2.
  assert (Hstep : forall w r w', distinct_ids (orgs_full w) ->
            main list_html net w = (r, w') -> distinct_ids (orgs_full w')).
  { apply (main_invariant (fun w => distinct_ids (orgs_full w))).
    - intros; assumption.
    - intros; assumption.
    - intros i x w0 r w' HP. now apply visit_distinct. }
  split; eauto.
Qed.

Lemma has_profile_app (id : string) (w w' : world) (o : org_record) :
  orgs_full w' = orgs_full w ++ [o] ->
  has_profile id w = true -> has_profile id w' = true.
Proof.
  unfold has_profile. intros ->. rewrite List.filter_app, length_app.
  rewrite !negb_true_iff, !Nat.eqb_neq. lia.
Qed.

(** A run makes no request for an entity that has a record when the run
    starts, and the entity still has it when the run ends. *)
Theorem completed_entity_not_fetched (list_html : list list_table)
    (net : string -> reply) (id : string) (w w' : world) (r : result unit) :
  has_profile id w = true ->
  main list_html net w = (r, w') ->
  has_profile id w' = true /\
  exists evs, trace w' = trace w ++ evs /\ ~ In (Get id) evs.
Proof.
  intros Hhas.
  apply (main_invariant
           (fun w1 => has_profile id w1 = true /\
                      exists evs, trace w1 = trace w ++ evs
                                  /\ ~ In (Get id) evs)).
  - intros w1 e Hq (H1 & evs & Ht & Hn). split; [exact H1|].
    exists (evs ++ [e]). cbn. rewrite Ht, <- app_assoc. split; [reflexivity|].
    intros Hin. apply in_app_or in Hin. destruct Hin as [Hin|[Heq|[]]];
      [now apply Hn | subst e; exact Hq].
  - intros w1 ids H1. exact H1.
  - intros i x w1 r1 w2 (H1 & evs & Ht & Hn) Hrun.
    apply visit_effect in Hrun.
    destruct Hrun as (_ & Hfull & evs' & Ht' & Hget). split.
    + destruct Hfull as [Hsame | (_ & rr & o & _ & _ & Happ)].
      * unfold has_profile in *. now rewrite Hsame.
      * eapply has_profile_app; eauto.
    + exists (evs ++ evs'). rewrite Ht', Ht, <- app_assoc.
      split; [reflexivity|]. intros Hin. apply in_app_or in Hin.
      destruct Hin as [Hin|Hin]; [now apply Hn|].
      apply Hget in Hin. destruct Hin as [_ Hno]. congruence.
  - split; [exact Hhas|]. exists []. now rewrite app_nil_r.
Qed.

(** A site whose pages have an empty form leaves the identifier alone. *)
Example keeps_id_empty_form : keeps_id (fun _ => Http (Response 200 [[]])).
Proof.
  intros id r o Hr Hp. inversion Hr; subst. cbn in Hp.
  inversion Hp; subst. apply lookup_singleton_eq.
Qed.

(** * Further properties of the code *)

(** ** Characters of strings *)

Lemma all_chars_append (p : ascii -> bool) (a b : string) :
  all_chars p (a +:+ b) = all_chars p a && all_chars p b.
Proof.
  induction a as [|c a IH]; [reflexivity|].
  simpl. rewrite IH. now rewrite andb_assoc.
Qed.

Lemma all_chars_and (p q : ascii -> bool) (s : string) :
  all_chars (fun c => p c && q c) s = all_chars p s && all_chars q s.
Proof.
  induction s as [|c s IH]; [reflexivity|].
  cbn. rewrite IH. destruct (p c), (q c), (all_chars p s); reflexivity.
Qed.

Lemma all_chars_filter (p : ascii -> bool) (s : string) :
  all_chars p (Py.filter_chars p s) = true.
Proof.
  induction s as [|c s IH]; [reflexivity|].
  cbn. destruct (p c) eqn:E; [cbn; now rewrite E | exact IH].
Qed.

Lemma all_chars_filter_keeps (p q : ascii -> bool) (s : string) :
  all_chars q s = true -> all_chars q (Py.filter_chars p s) = true.
Proof.
  induction s as [|c s IH]; [reflexivity|].
  cbn. intros H. apply andb_true_iff in H. destruct H as [Hc Hs].
  destruct (p c); [cbn; rewrite Hc; now apply IH | now apply IH].
Qed.

Lemma all_chars_replace_from (p : ascii -> bool) (old new : string)
    (s : string) (skip : nat) :
  all_chars p new = true -> all_chars p s = true ->
  all_chars p (Py.replace_from old new skip s) = true.
Proof.
  intros Hnew. revert skip. induction s as [|c s IH]; intros skip Hs;
    [reflexivity|].
  cbn in Hs. apply andb_true_iff in Hs. destruct Hs as [Hc Hs].
  cbn [Py.replace_from]. destruct skip as [|k]; [|now apply IH].
  destruct (String.prefix old (String c s)).
  - rewrite all_chars_append, Hnew. now apply IH.
  - cbn. rewrite Hc. now apply IH.
Qed.

Lemma lower_char_not_upper (c : ascii) :
  Py.between 65 90 (Py.lower_char c) = false.
Proof. destruct c as [[] [] [] [] [] [] [] []]; reflexivity. Qed.

Lemma lower_char_idem (c : ascii) :
  Py.lower_char (Py.lower_char c) = Py.lower_char c.
Proof. destruct c as [[] [] [] [] [] [] [] []]; reflexivity. Qed.

Lemma isspace_lower_char (c : ascii) :
  Py.isspace (Py.lower_char c) = Py.isspace c.
Proof. destruct c as [[] [] [] [] [] [] [] []]; reflexivity. Qed.

Lemma all_chars_lower (s : string) :
  all_chars (fun c => negb (Py.between 65 90 c)) (Py.lower s) = true.
Proof.
  induction s as [|c s IH]; [reflexivity|].
  cbn [Py.lower Py.map_chars all_chars]. fold (Py.lower s).
  now rewrite lower_char_not_upper, IH.
Qed.

Lemma all_chars_sub_trailing (p : ascii -> bool) (s : string) :
  all_chars p s = true -> all_chars p (sub_trailing s) = true.
Proof.
  induction s as [|c s IH]; [reflexivity|].
  intros H. cbn in H. apply andb_true_iff in H. destruct H as [Hc Hs].
  cbn [sub_trailing]. destruct (_ || _); [reflexivity|].
  cbn. rewrite Hc. now apply IH.
Qed.

Lemma key_base_keychar (cell : string) :
  all_chars keychar (key_base cell) = true.
Proof.
  unfold key_base, keychar. cbv zeta. rewrite all_chars_and.
  apply andb_true_iff. split.
  - apply all_chars_sub_trailing, all_chars_replace_from; [reflexivity|].
    apply all_chars_filter.
  - apply all_chars_sub_trailing, all_chars_replace_from; [reflexivity|].
    apply all_chars_filter_keeps, all_chars_replace_from; [reflexivity|].
    apply all_chars_lower.
Qed.

(** The key that clean_key returns is made of digits, small letters and
    underscores only, whatever the label, when the contact type it is given
    is made of such characters (the script passes 'hq', 'preferred' or
    None). *)
Theorem clean_key_chars (cell : string) (contact_type : option string)
    (key : string) :
  (forall t, contact_type = Some t -> all_chars keychar t = true) ->
  clean_key cell contact_type = Ok key ->
  all_chars keychar key = true.
Proof.
  intros Hct. unfold clean_key.
  destruct (Py.in_list (key_base cell) contact_keys).
  - destruct contact_type as [t|]; [|discriminate].
    intros [= <-]. rewrite !all_chars_append, (Hct t eq_refl).
    cbn [andb]. apply key_base_keychar.
  - intros [= <-]. apply key_base_keychar.
Qed.

Lemma clean_key_chars_witness :
  all_chars keychar "preferred_email" = true.
Proof.
  apply (clean_key_chars " E-Mail: " (Some "preferred") "preferred_email").
  - intros t [= <-]. reflexivity.
  - vm_compute. reflexivity.
Defined.

(** ** Labels that differ in case *)

Lemma lower_idem (s : string) : Py.lower (Py.lower s) = Py.lower s.
Proof.
  induction s as [|c s IH]; [reflexivity|].
  cbn [Py.lower Py.map_chars]. fold (Py.lower s) (Py.lower (Py.lower s)).
  rewrite lower_char_idem. f_equal. exact IH.
Qed.

Lemma lstrip_lower (s : string) :
  Py.lstrip (Py.lower s) = Py.lower (Py.lstrip s).
Proof.
  induction s as [|c s IH]; [reflexivity|].
  cbn [Py.lower Py.map_chars Py.lstrip]. fold (Py.lower s).
  rewrite isspace_lower_char. destruct (Py.isspace c); [exact IH|].
  reflexivity.
Qed.

Lemma rstrip_lower (s : string) :
  Py.rstrip (Py.lower s) = Py.lower (Py.rstrip s).
Proof.
  induction s as [|c s IH]; [reflexivity|].
  cbn [Py.lower Py.map_chars Py.rstrip]. fold (Py.lower s). rewrite IH.
  destruct (Py.rstrip s) as [|d r]; cbn [Py.lower Py.map_chars].
  - rewrite isspace_lower_char. destruct (Py.isspace c); reflexivity.
  - reflexivity.
Qed.

Lemma strip_lower (s : string) :
  Py.strip (Py.lower s) = Py.lower (Py.strip s).
Proof. unfold Py.strip. now rewrite lstrip_lower, rstrip_lower. Qed.

(** clean_key does not see the case of a label: the label and its lower
    case give the same key, or the same TypeError, in every context. *)
Theorem clean_key_ignores_case (cell : string) (contact_type : option string) :
  clean_key (Py.lower cell) contact_type = clean_key cell contact_type.
Proof.
  unfold clean_key, key_base. now rewrite strip_lower, lower_idem.
Qed.

(** ** Cleaned text *)

Lemma prefix_empty (s : string) : String.prefix "" s = true.
Proof. destruct s; reflexivity. Qed.

Lemma replace_char_removed (c : ascii) (s : string) (skip : nat) :
  all_chars (fun a => negb (Ascii.eqb a c))
    (Py.replace_from (String c "") "" skip s) = true.
Proof.
  revert skip. induction s as [|a s IH]; intros skip; [reflexivity|].
  cbn [Py.replace_from]. destruct skip as [|k]; [|apply IH].
  cbn [String.prefix]. destruct (Ascii.ascii_dec c a) as [->|Hne].
  - rewrite prefix_empty. cbn. apply IH.
  - cbn [all_chars]. rewrite IH, andb_true_r.
    apply negb_true_iff, Ascii.eqb_neq. congruence.
Qed.

(** clean_value_text leaves no tab in a value. *)
Theorem clean_value_text_no_tab (cell : string) :
  all_chars (fun a => negb (Ascii.eqb a (ascii_of_nat 9)))
    (clean_value_text cell) = true.
Proof.
  unfold clean_value_text, Py.replace.
  apply all_chars_replace_from; [reflexivity|].
  apply replace_char_removed.
Qed.

(** ** Profile codes in links *)

Lemma append_cons (c : ascii) (a b : string) :
  String c a +:+ b = String c (a +:+ b).
Proof. reflexivity. Qed.

Lemma prefix_split (p s : string) :
  String.prefix p s = true -> s = p +:+ Py.drop (String.length p) s.
Proof.
  revert s. induction p as [|a p IH]; intros s H.
  - destruct s; reflexivity.
  - destruct s as [|b s]; [discriminate|]. cbn in H.
    destruct (Ascii.ascii_dec a b) as [->|]; [|discriminate].
    change (String b s = String b (p +:+ Py.drop (String.length p) s)).
    f_equal. now apply IH.
Qed.

Lemma take_digits_digits (s : string) :
  all_chars Py.isdigit (Py.take_digits s) = true.
Proof.
  induction s as [|c s IH]; [reflexivity|].
  cbn. destruct (Py.isdigit c) eqn:E; [cbn; now rewrite E | reflexivity].
Qed.

Lemma take_digits_split (s : string) :
  exists post, s = Py.take_digits s +:+ post
               /\ starts_without_digit post = true.
Proof.
  induction s as [|c s (post & Hs & Hpost)].
  - exists "". split; reflexivity.
  - cbn [Py.take_digits]. destruct (Py.isdigit c) eqn:E.
    + exists post. split; [|exact Hpost].
      rewrite append_cons. f_equal. exact Hs.
    + exists (String c s). split; [reflexivity | cbn; now rewrite E].
Qed.

Lemma take_digits_app (d rest : string) :
  all_chars Py.isdigit d = true -> starts_without_digit rest = true ->
  Py.take_digits (d +:+ rest) = d.
Proof.
  intros Hd Hrest. induction d as [|c d IH].
  - destruct rest as [|c r]; [reflexivity|].
    cbn [starts_without_digit] in Hrest. apply negb_true_iff in Hrest.
    change ("" +:+ String c r) with (String c r).
    cbn [Py.take_digits]. now rewrite Hrest.
  - cbn in Hd. apply andb_true_iff in Hd. destruct Hd as [Hc Hd].
    rewrite append_cons. cbn [Py.take_digits]. rewrite Hc. f_equal.
    now apply IH.
Qed.

Lemma search_profileCode_numeric (s d : string) :
  search_profileCode s = Some d -> numeric d = true.
Proof.
  induction s as [|c s IH]; [discriminate|].
  cbn [search_profileCode]. cbv zeta.
  pose proof (take_digits_digits (Py.drop 12 (String c s))) as Hdig.
  set (digits := Py.take_digits (Py.drop 12 (String c s))) in *.
  clearbody digits.
  destruct (String.prefix "profileCode=" (String c s)); cbn [andb];
    [|exact IH].
  destruct (String.eqb digits "") eqn:He; cbn [negb]; [exact IH|].
  intros [= <-]. unfold numeric. now rewrite Hdig, He.
Qed.

(** A profile code found in a link is a non-empty string of digits, and it
    stands in the link right after [profileCode=], up to the first character
    that is not a digit. *)
Theorem search_profileCode_sound (s d : string) :
  search_profileCode s = Some d ->
  numeric d = true /\
  exists pre post,
    s = pre +:+ "profileCode=" +:+ d +:+ post
    /\ starts_without_digit post = true.
Proof.
  induction s as [|c s IH]; [discriminate|].
  cbn [search_profileCode]. cbv zeta.
  assert (Hrec : search_profileCode s = Some d ->
            numeric d = true /\
            exists pre post,
              String c s = pre +:+ "profileCode=" +:+ d +:+ post
              /\ starts_without_digit post = true).
  { intros H. destruct (IH H) as (Hn & pre & post & -> & Hpost).
    split; [exact Hn|]. exists (String c pre), post. now split. }
  destruct (take_digits_split (Py.drop 12 (String c s)))
    as (post & Hsplit & Hpost).
  pose proof (take_digits_digits (Py.drop 12 (String c s))) as Hdig.
  set (digits := Py.take_digits (Py.drop 12 (String c s))) in *.
  clearbody digits.
  destruct (String.prefix "profileCode=" (String c s)) eqn:Hp;
    cbn [andb]; [|exact Hrec].
  destruct (String.eqb digits "") eqn:He; cbn [negb]; [exact Hrec|].
  intros [= <-]. split.
  - unfold numeric. now rewrite Hdig, He.
  - exists "", post. split; [|exact Hpost].
    apply prefix_split in Hp. rewrite Hp at 1.
    change (String.length "profileCode=") with 12.
    rewrite Hsplit at 1. reflexivity.
Qed.

Lemma search_profileCode_sound_witness :
  numeric "4711" = true /\
  exists pre post,
    "showProfileDetail.do?method=details&profileCode=4711&tab=1"
    = pre +:+ "profileCode=" +:+ "4711" +:+ post
    /\ starts_without_digit post = true.
Proof.
  apply (search_profileCode_sound
           "showProfileDetail.do?method=details&profileCode=4711&tab=1"
           "4711").
  vm_compute. reflexivity.
Defined.

Lemma numeric_digits (d : string) :
  numeric d = true -> all_chars Py.isdigit d = true /\ d <> "".
Proof.
  unfold numeric. intros H. apply andb_true_iff in H. destruct H as [Ha Hn].
  split; [exact Ha|]. apply negb_true_iff, String.eqb_neq in Hn. exact Hn.
Qed.

Lemma search_profileCode_skip (c : ascii) (s : string) :
  String.prefix "profileCode=" (String c s) = false ->
  search_profileCode (String c s) = search_profileCode s.
Proof. intros H. cbn [search_profileCode]. cbv zeta. now rewrite H. Qed.

Lemma search_profileCode_here (d rest : string) :
  numeric d = true -> starts_without_digit rest = true ->
  search_profileCode ("profileCode=" +:+ d +:+ rest) = Some d.
Proof.
  intros Hnum Hrest. apply numeric_digits in Hnum. destruct Hnum as [Hd Hne].
  apply String.eqb_neq in Hne.
  change ("profileCode=" +:+ d +:+ rest)
    with (String "p" ("rofileCode=" +:+ d +:+ rest)).
  cbn [search_profileCode]. cbv zeta.
  change (Py.drop 12 (String "p" ("rofileCode=" +:+ d +:+ rest)))
    with (d +:+ rest).
  rewrite take_digits_app, Hne by assumption.
  assert (Hp : String.prefix "profileCode="
                 (String "p" ("rofileCode=" +:+ d +:+ rest)) = true).
  { change (String "p" ("rofileCode=" +:+ d +:+ rest))
      with ("profileCode=" +:+ (d +:+ rest)).
    generalize (d +:+ rest). intros x. cbn.
    repeat (match goal with
            | |- context [Ascii.ascii_dec ?a ?b] =>
                destruct (Ascii.ascii_dec a b); [|congruence]
            end).
    apply prefix_empty. }
  now rewrite Hp.
Qed.

(** The address that get_parse_org requests for a profile code made of
    digits is a link from which generate_list reads the same code back: a
    listing row with that link adds the identity of that code. *)
Theorem profile_url_round_trip (all_orgs : list identity)
    (name profile_code : string) (rest : list_row) :
  numeric profile_code = true ->
  list_row_step all_orgs
    (Some (Anchor (Some (profile_url profile_code)) name) :: rest)
  = Ok (all_orgs ++ [Identity name profile_code]).
Proof.
  intros Hnum.
  unfold list_row_step. cbn [href atext].
  assert (Hc : Py.contains "showProfileDetail" (profile_url profile_code)
               = true) by reflexivity.
  rewrite Hc.
  assert (Hs : search_profileCode (profile_url profile_code)
               = Some profile_code).
  { unfold profile_url, BASE_URL.
    repeat (rewrite append_cons || change ("" +:+ ?x) with x).
    repeat (rewrite search_profileCode_skip by reflexivity).
    now apply (search_profileCode_here profile_code "&sessionCheck=false"). }
  now rewrite Hs.
Qed.

Lemma profile_url_round_trip_witness :
  list_row_step [] [Some (Anchor (Some (profile_url "4711")) "Some NGO")]
  = Ok ([] ++ [Identity "Some NGO" "4711"]).
Proof.
  apply (profile_url_round_trip [] "Some NGO" "4711" []). reflexivity.
Defined.

(** ** generate_list *)

Lemma list_row_step_effect (acc acc' : list identity) (r : list_row) :
  list_row_step acc r = Ok acc' ->
  acc' = acc \/
  exists ident, acc' = acc ++ [ident] /\ numeric (org_id ident) = true.
Proof.
  unfold list_row_step. destruct r as [|[link|] r]; try (intros [= <-]; now left).
  destruct (href link) as [h|]; [|discriminate].
  destruct (Py.contains "showProfileDetail" h); [|intros [= <-]; now left].
  destruct (search_profileCode h) as [d|] eqn:Hs; [|discriminate].
  intros [= <-]. right. exists (Identity (atext link) d). split; [reflexivity|].
  now apply search_profileCode_numeric in Hs.
Qed.

Lemma list_rows_effect (rows : list_table) (acc acc' : list identity) :
  list_rows acc rows = Ok acc' ->
  exists new, acc' = acc ++ new
              /\ Forall (fun ident => numeric (org_id ident) = true) new
              /\ length new <= length rows.
Proof.
  revert acc. induction rows as [|r rows IH]; intros acc H.
  - cbn in H. injection H as <-. exists []. rewrite app_nil_r.
    repeat split; [constructor | reflexivity].
  - cbn [list_rows] in H. unfold_result.
    destruct (list_row_step acc r) as [acc1|e] eqn:Hr; [|discriminate].
    apply IH in H. destruct H as (new & -> & Hnum & Hlen).
    apply list_row_step_effect in Hr.
    destruct Hr as [-> | (ident & -> & Hid)].
    + exists new. repeat split; [assumption | cbn; lia].
    + exists (ident :: new). rewrite <- app_assoc.
      repeat split; [now constructor | cbn; lia].
Qed.

(** When generate_list returns, it has appended identities to [org_ids], at
    most one for a row of the first matched table, each with a non-empty
    profile code of digits; the profile table and the trace are as they
    were. *)
Theorem generate_list_appends (list_html : list list_table) (w w' : world) :
  generate_list list_html w = (Ok tt, w') ->
  exists new,
    w' = World (org_ids w ++ new) (orgs_full w) (trace w)
    /\ Forall (fun ident => numeric (org_id ident) = true) new
    /\ length new <= length (hd [] list_html).
Proof.
  unfold generate_list. destruct list_html as [|t l]; [discriminate|].
  unfold_crawl. destruct (list_rows [] t) as [ids|e] eqn:Hrows;
    [|discriminate].
  intros [= <-]. apply list_rows_effect in Hrows.
  destruct Hrows as (new & -> & Hnum & Hlen). exists new. now repeat split.
Qed.

Lemma generate_list_appends_witness :
  exists new,
    World [Identity "Some NGO" "4711"] [] []
    = World (org_ids (World [] [] []) ++ new) (orgs_full (World [] [] []))
        (trace (World [] [] []))
    /\ Forall (fun ident => numeric (org_id ident) = true) new
    /\ length new
       <= length (hd []
            [[[]; [None];
              [Some (Anchor (Some "showProfileDetail.do?profileCode=4711")
                       "Some NGO")]]]).
Proof.
  apply (generate_list_appends
           [[[]; [None];
             [Some (Anchor (Some "showProfileDetail.do?profileCode=4711")
                      "Some NGO")]]]
           (World [] [] []) (World [Identity "Some NGO" "4711"] [] [])).
  vm_compute. reflexivity.
Defined.

(** When generate_list lets an exception escape while it goes through the
    listing it has read (no result table, a link without [href], a profile
    link without a numeric code), nothing has been inserted, not even the
    identities of the rows before the failing one: the world is as it
    was. *)
Theorem generate_list_all_or_nothing (list_html : list list_table)
    (w w' : world) (e : exn) :
  generate_list list_html w = (Raise e, w') -> w' = w.
Proof.
  unfold generate_list. destruct list_html as [|t l].
  - unfold lift. now intros [= _ <-].
  - unfold_crawl. destruct (list_rows [] t) as [ids|e1];
      [discriminate | now intros [= _ <-]].
Qed.

Lemma generate_list_all_or_nothing_witness :
  World [] [] [] = World [] [] [].
Proof.
  apply (generate_list_all_or_nothing
           [[[Some (Anchor (Some "showProfileDetail.do?profileCode=1") "A")];
             [Some (Anchor (Some "showProfileDetail.do?id=2") "B")]]]
           (World [] [] []) (World [] [] []) AttributeError).
  vm_compute. reflexivity.
Defined.

(** Listing rows without a cell, or whose first cell holds no link (the
    header row of the table), add nothing: dropping them from the table
    does not change what generate_list collects. *)
Theorem list_rows_skips_unlinked (rows : list_table) (acc : list identity) :
  list_rows acc (List.filter has_link rows) = list_rows acc rows.
Proof.
  revert acc. induction rows as [|r rows IH]; intros acc; [reflexivity|].
  cbn [List.filter]. destruct (has_link r) eqn:Hl.
  - cbn [list_rows]. unfold_result.
    destruct (list_row_step acc r); [apply IH | reflexivity].
  - rewrite IH. cbn [list_rows].
    destruct r as [|[link|] r]; try discriminate; reflexivity.
Qed.

(** ** The sectioned list, in general *)

Lemma clean_key_none (h : string) :
  clean_key h None =
  if Py.in_list (key_base h) contact_keys then Raise TypeError
  else Ok (key_base h).
Proof. reflexivity. Qed.

(** Once the current section exists, the loop can only fail on a heading
    that clean_key refuses, and it does so with a TypeError. *)
Lemma activity_loop_outcome (elements : list element) (k : string)
    (m : gmap string (list string)) :
  is_Some (m !! k) ->
  if forallb heading_ok elements
  then exists m', activity_loop k m elements = Ok m'
  else activity_loop k m elements = Raise TypeError.
Proof.
  revert k m. induction elements as [|e els IH]; intros k m Hk.
  - cbn. now exists m.
  - cbn [forallb activity_loop]. unfold heading_ok at 1.
    destruct (name e).
    + rewrite clean_key_none.
      destruct (Py.in_list (key_base (etext e)) contact_keys);
        cbn [negb andb]; unfold_result; [reflexivity|].
      apply IH. rewrite lookup_insert_eq. eauto.
    + cbn [andb]. destruct Hk as [l Hl]. rewrite Hl.
      apply IH. rewrite lookup_insert_eq. eauto.
Qed.

Lemma clean_activity_list_raise (c : cell) (e : exn) :
  clean_activity_list c = Raise e -> e = KeyError "" \/ e = TypeError.
Proof.
  unfold clean_activity_list. destruct (find_all_b_li c) as [|x els];
    [discriminate|].
  cbn [activity_loop]. destruct (name x).
  - rewrite clean_key_none.
    destruct (Py.in_list (key_base (etext x)) contact_keys); unfold_result;
      [intros [= <-]; now right|].
    pose proof (activity_loop_outcome els (key_base (etext x))
                  (<[key_base (etext x) := []]> ∅)) as H.
    rewrite lookup_insert_eq in H. specialize (H (ex_intro _ _ eq_refl)).
    destruct (forallb heading_ok els).
    + destruct H as [m' ->]. discriminate.
    + rewrite H. intros [= <-]. now right.
  - rewrite lookup_empty. intros [= <-]. now left.
Qed.

(** The outcome of clean_activity_list, by the shape of the cell: a cell
    that begins with a list item gives KeyError(''); otherwise a heading
    whose key is a contact key (clean_key is called without a contact type)
    gives a TypeError; every other cell gives a dict. *)
Theorem clean_activity_list_outcome (c : cell) :
  match clean_activity_list c with
  | Ok _ =>
      starts_with_item (find_all_b_li c) = false
      /\ forallb heading_ok (find_all_b_li c) = true
  | Raise e =>
      starts_with_item (find_all_b_li c) = true /\ e = KeyError ""
      \/ starts_with_item (find_all_b_li c) = false
         /\ forallb heading_ok (find_all_b_li c) = false /\ e = TypeError
  end.
Proof.
  unfold clean_activity_list. destruct (find_all_b_li c) as [|e els].
  - cbn. now split.
  - unfold starts_with_item, is_li.
    cbn [forallb activity_loop]. unfold heading_ok at 1 3.
    destruct (name e).
    + rewrite clean_key_none.
      destruct (Py.in_list (key_base (etext e)) contact_keys);
        cbn [negb andb]; unfold_result; [right; now repeat split|].
      pose proof (activity_loop_outcome els (key_base (etext e))
                    (<[key_base (etext e) := []]> ∅)) as H.
      rewrite lookup_insert_eq in H. specialize (H (ex_intro _ _ eq_refl)).
      destruct (forallb heading_ok els).
      * destruct H as [m' ->]. now split.
      * rewrite H. right. now repeat split.
    + rewrite lookup_empty. left. now split.
Qed.

Lemma activity_loop_suffix (pre rest : list element) (k : string)
    (m m' : gmap string (list string)) :
  activity_loop k m (pre ++ rest) = Ok m' ->
  exists k1 m1, activity_loop k1 m1 rest = Ok m'.
Proof.
  revert k m. induction pre as [|e pre IH]; intros k m H.
  - now exists k, m.
  - cbn [app activity_loop] in H. destruct (name e).
    + destruct (clean_key (etext e) None) as [k'|]; unfold_result;
        [|discriminate].
      eapply IH; eauto.
    + destruct (m !! k); [|discriminate]. eapply IH; eauto.
Qed.

Lemma activity_loop_items (items post : list element) (k : string)
    (m : gmap string (list string)) (l : list string) :
  forallb is_li items = true ->
  m !! k = Some l ->
  activity_loop k m (items ++ post)
  = activity_loop k (<[k := l ++ item_texts items]> m) post.
Proof.
  revert m l. induction items as [|e items IH]; intros m l Hli Hl.
  - cbn. rewrite app_nil_r. now rewrite insert_id.
  - cbn [forallb] in Hli. apply andb_true_iff in Hli.
    destruct Hli as [He Hli]. unfold is_li in He.
    cbn [app activity_loop]. destruct (name e); [discriminate|].
    rewrite Hl.
    rewrite (IH _ (l ++ [clean_value_text (etext e)]) Hli)
      by apply lookup_insert_eq.
    rewrite insert_insert_eq. cbn [item_texts List.map].
    now rewrite <- app_assoc.
Qed.

Lemma activity_loop_untouched (elements : list element) (k kb : string)
    (m m' : gmap string (list string)) :
  k <> kb \/ starts_with_item elements = false ->
  (forall e, In e elements -> name e = B -> key_base (etext e) <> kb) ->
  activity_loop k m elements = Ok m' ->
  m' !! kb = m !! kb.
Proof.
  revert k m. induction elements as [|e els IH]; intros k m Hk Hhead H.
  - cbn in H. now injection H as <-.
  - cbn [activity_loop] in H. destruct (name e) eqn:Hn.
    + rewrite clean_key_none in H.
      destruct (Py.in_list _ _); unfold_result; [discriminate|].
      assert (Hne : key_base (etext e) <> kb)
        by (apply Hhead; [now left | exact Hn]).
      rewrite (IH _ _ (or_introl Hne)
                 (fun e' Hin => Hhead e' (or_intror Hin)) H).
      now apply lookup_insert_ne.
    + destruct Hk as [Hk|Hk];
        [|unfold starts_with_item, is_li in Hk; rewrite Hn in Hk;
          discriminate].
      destruct (m !! k) as [l|]; [|discriminate].
      rewrite (IH _ _ (or_introl Hk)
                 (fun e' Hin => Hhead e' (or_intror Hin)) H).
      now apply lookup_insert_ne.
Qed.

(** In the dict that clean_activity_list returns, the section of a heading
    holds the cleaned list items that stand between it and the next heading,
    in order, provided no later heading has the same key. *)
Theorem section_items (c : cell) (pre items post : list element)
    (h : string) (m : gmap string (list string)) :
  find_all_b_li c = pre ++ Element B h :: items ++ post ->
  forallb is_li items = true ->
  starts_with_item post = false ->
  (forall e, In e post -> name e = B -> key_base (etext e) <> key_base h) ->
  clean_activity_list c = Ok m ->
  m !! key_base h = Some (item_texts items).
Proof.
  intros Hels Hitems Hpost Hlater Hrun.
  unfold clean_activity_list in Hrun. rewrite Hels in Hrun.
  apply activity_loop_suffix in Hrun. destruct Hrun as (k1 & m1 & Hrun).
  cbn [activity_loop name etext] in Hrun. rewrite clean_key_none in Hrun.
  destruct (Py.in_list _ _); unfold_result; [discriminate|].
  rewrite (activity_loop_items items post _ _ [] Hitems) in Hrun
    by apply lookup_insert_eq.
  rewrite insert_insert_eq in Hrun.
  rewrite (activity_loop_untouched post _ (key_base h) _ _
             (or_intror Hpost) Hlater Hrun).
  now rewrite lookup_insert_eq.
Qed.

Lemma section_items_witness :
  (<["education" := ["Literacy"]]>
     (<["health" := ["Nutrition"; "Sanitation"]]> ∅)
   : gmap string (list string)) !! key_base "Health"
  = Some (item_texts [Element LI "Nutrition"; Element LI " Sanitation "]).
Proof.
  apply (section_items
           (Cell "" [Element B "Health"; Element LI "Nutrition";
                     Element LI " Sanitation "; Element B "Education";
                     Element LI "Literacy"])
           [] [Element LI "Nutrition"; Element LI " Sanitation "]
           [Element B "Education"; Element LI "Literacy"] "Health").
  - reflexivity.
  - reflexivity.
  - reflexivity.
  - intros e [<-|[<-|[]]] _; vm_compute; discriminate.
  - vm_compute. reflexivity.
Defined.

(** ** What the rows of a page can do to a record *)

(** Rows that do not have exactly two cells are passed over: a table and
    the same table without these rows are parsed alike. *)
Theorem parse_rows_skips_other_shapes (rows : table)
    (st : string * org_record) :
  parse_rows st (List.filter two_cells rows) = parse_rows st rows.
Proof.
  revert st. induction rows as [|r rows IH]; intros st; [reflexivity|].
  cbn [List.filter]. destruct (two_cells r) eqn:Htwo.
  - cbn [parse_rows]. unfold_result.
    destruct (parse_row st r); [apply IH | reflexivity].
  - cbn [parse_rows]. rewrite parse_row_other_shape.
    + unfold_result. apply IH.
    + unfold two_cells in Htwo. now apply Nat.eqb_neq in Htwo.
Qed.

Lemma store_row_changes (ct ct' : string) (o o' : org_record) (key : string)
    (v : cell) :
  store_row ct o key v = Ok (ct', o') ->
  forall k, k <> key -> o' !! k = o !! k.
Proof.
  unfold store_row. intros H k Hk.
  destruct (negb _); [|now injection H as _ <-].
  destruct (Py.in_list _ _);
    [injection H as _ <-; now apply lookup_insert_ne|].
  destruct (String.eqb _ _);
    [|injection H as _ <-; now apply lookup_insert_ne].
  destruct (clean_activity_list v); unfold_result; [|discriminate].
  injection H as _ <-. now apply lookup_insert_ne.
Qed.

(** The keys that the rows of a table can write: when a property holds of
    the base key of every row and of every prefixed contact key, a key
    without the property keeps its value. *)
Lemma parse_rows_changes (P : string -> Prop) (rows : table) :
  (forall r b, In r rows -> row_base r = Some b -> P b) ->
  (forall ct b, ct = "hq" \/ ct = "preferred" -> In b contact_keys ->
                P (ct +:+ "_" +:+ b)) ->
  forall ct o ct' o',
    ct = "hq" \/ ct = "preferred" ->
    parse_rows (ct, o) rows = Ok (ct', o') ->
    forall k, ~ P k -> o' !! k = o !! k.
Proof.
  intros Hbase Hcontact.
  induction rows as [|r rows IH]; intros ct o ct' o' Hct H k HnP.
  - cbn in H. now injection H as _ <-.
  - cbn [parse_rows] in H. unfold_result.
    destruct (parse_row (ct, o) r) as [[ct1 o1]|e] eqn:Hr; [|discriminate].
    assert (Hct1 : ct1 = "hq" \/ ct1 = "preferred").
    { apply parse_row_context in Hr. subst ct1.
      destruct (is_preferred_header r); auto. }
    rewrite (IH (fun r' b Hin => Hbase r' b (or_intror Hin))
               ct1 o1 ct' o' Hct1 H k HnP).
    destruct (Nat.eq_dec (length r) 2) as [Hlen|Hlen].
    + destruct r as [|kr [|v [|x r]]]; try discriminate.
      rewrite parse_row_two in Hr. cbv zeta in Hr.
      set (cts := if String.eqb (text kr) "Preferred mailing address"
                  then "preferred" else ct) in *.
      assert (Hcts : cts = "hq" \/ cts = "preferred")
        by (subst cts; destruct (String.eqb _ _); auto).
      unfold clean_key in Hr.
      destruct (Py.in_list (key_base (text kr)) contact_keys) eqn:Hin;
        unfold_result.
      * eapply store_row_changes; [exact Hr|]. intros ->. apply HnP.
        apply Hcontact; [exact Hcts | now apply in_list_true].
      * eapply store_row_changes; [exact Hr|]. intros ->. apply HnP.
        apply (Hbase [kr; v]); [now left | reflexivity].
    + rewrite parse_row_other_shape in Hr by assumption.
      now injection Hr as _ <-.
Qed.

Lemma parse_tables_changes (P : string -> Prop) (tables : form) :
  (forall t r b, In t tables -> In r t -> row_base r = Some b -> P b) ->
  (forall ct b, ct = "hq" \/ ct = "preferred" -> In b contact_keys ->
                P (ct +:+ "_" +:+ b)) ->
  forall o o', parse_tables o tables = Ok o' ->
  forall k, ~ P k -> o' !! k = o !! k.
Proof.
  intros Hbase Hcontact.
  induction tables as [|t tables IH]; intros o o' H k HnP.
  - cbn in H. now injection H as <-.
  - cbn [parse_tables] in H. unfold parse_table in H. unfold_result.
    destruct (parse_rows ("hq", o) t) as [[ct1 o1]|e] eqn:Ht; [|discriminate].
    cbn [snd] in H.
    rewrite (IH (fun t' r b Hin => Hbase t' r b (or_intror Hin)) o1 o' H k HnP).
    apply (parse_rows_changes P t
             (fun r b Hin => Hbase t r b (or_introl eq_refl) Hin)
             Hcontact "hq" o ct1 o1 (or_introl eq_refl) Ht k HnP).
Qed.

(** A page none of whose two-cell rows has the key [org_id] gives a record
    that still carries the profile code it was started with. *)
Theorem parse_org_keeps_id (profile_code : string) (raw : soup)
    (organization : org_record) :
  (forall t r, In t (hd [] raw) -> In r t -> row_base r <> Some "org_id") ->
  parse_org profile_code raw = Ok organization ->
  organization !! "org_id" = Some (Scalar profile_code).
Proof.
  intros Hrows Hp. destruct raw as [|form0 raw]; [discriminate|].
  cbn [parse_org hd] in *.
  rewrite (parse_tables_changes (fun k => k <> "org_id") form0) with
    (o := {[ "org_id" := Scalar profile_code ]}) (o' := organization).
  - apply lookup_singleton_eq.
  - intros t r b Ht Hr Hb ->. now apply (Hrows t r).
  - intros ct b [-> | ->] Hb;
      repeat (destruct Hb as [<- | Hb]; [discriminate|]); destruct Hb.
  - exact Hp.
  - intros H. now apply H.
Qed.

Lemma parse_org_keeps_id_witness :
  (<["hq_fax" := Scalar "12"]> {[ "org_id" := Scalar "7" ]} : org_record)
    !! "org_id" = Some (Scalar "7").
Proof.
  apply (parse_org_keeps_id "7" [[ [[Cell "Fax" []; Cell "12" []]; []] ]]).
  - intros t r [<-|[]] [<-|[<-|[]]]; vm_compute; discriminate.
  - vm_compute. reflexivity.
Defined.

(** Every key of a record that parse produces is made of digits, small
    letters and underscores. *)
Theorem record_keys_are_identifiers (profile_code : string) (raw : soup)
    (organization : org_record) (k : string) :
  parse_org profile_code raw = Ok organization ->
  is_Some (organization !! k) ->
  all_chars keychar k = true.
Proof.
  intros Hp Hk. destruct raw as [|form0 raw]; [discriminate|].
  cbn [parse_org] in Hp.
  destruct (all_chars keychar k) eqn:E; [reflexivity|].
  rewrite (parse_tables_changes (fun k => all_chars keychar k = true) form0)
    with (o := {[ "org_id" := Scalar profile_code ]}) (o' := organization)
    in Hk.
  - destruct (decide (k = "org_id")) as [->|Hne]; [discriminate E|].
    rewrite lookup_singleton_ne in Hk by congruence.
    now destruct Hk.
  - intros t r b _ _ Hb. destruct r as [|kr [|v [|x r]]]; try discriminate.
    injection Hb as <-. apply key_base_keychar.
  - intros ct b [-> | ->] Hb;
      repeat (destruct Hb as [<- | Hb]; [reflexivity|]); destruct Hb.
  - exact Hp.
  - congruence.
Qed.

Lemma record_keys_are_identifiers_witness :
  all_chars keychar "hq_fax" = true.
Proof.
  apply (record_keys_are_identifiers "7"
           [[ [[Cell " FAX: " []; Cell "12" []]] ]]
           (<["hq_fax" := Scalar "12"]> {[ "org_id" := Scalar "7" ]})).
  - vm_compute. reflexivity.
  - rewrite lookup_insert_eq. eauto.
Defined.

(** ** The exceptions of the parsing *)

Lemma store_row_raise (ct : string) (o : org_record) (key : string)
    (v : cell) (e : exn) :
  store_row ct o key v = Raise e ->
  key = "areas_of_expertise_fields_of_activity"
  /\ (e = KeyError "" \/ e = TypeError).
Proof.
  unfold store_row. destruct (negb _); [|discriminate].
  destruct (Py.in_list _ _); [discriminate|].
  destruct (String.eqb key _) eqn:Hk; [|discriminate].
  apply String.eqb_eq in Hk.
  destruct (clean_activity_list v) as [m|e'] eqn:Hout; unfold_result;
    [discriminate|].
  intros [= <-]. split; [exact Hk|].
  now apply clean_activity_list_raise in Hout.
Qed.

Lemma last_char_append (a b : string) :
  b <> "" -> last_char (a +:+ b) = last_char b.
Proof.
  intros Hb. induction a as [|c a IH]; [reflexivity|].
  rewrite append_cons. cbn [last_char]. rewrite IH.
  destruct b as [|d b]; [now elim Hb|].
  cbn [last_char]. now destruct (last_char b).
Qed.

(** A prefixed contact key is never the key of the expertise field. *)
Lemma contact_key_not_expertise (ct b : string) :
  In b contact_keys ->
  ct +:+ "_" +:+ b <> "areas_of_expertise_fields_of_activity".
Proof.
  intros Hb Heq. apply (f_equal last_char) in Heq.
  rewrite last_char_append in Heq by discriminate.
  repeat (destruct Hb as [<- | Hb]; [discriminate Heq|]). destruct Hb.
Qed.

Lemma parse_row_raise (st : string * org_record) (r : row) (e : exn) :
  parse_row st r = Raise e ->
  row_base r = Some "areas_of_expertise_fields_of_activity"
  /\ (e = KeyError "" \/ e = TypeError).
Proof.
  destruct st as [ct o]. intros H.
  destruct (Nat.eq_dec (length r) 2) as [Hlen|Hlen].
  - destruct r as [|kr [|v [|x r]]]; try discriminate.
    rewrite parse_row_two in H. cbv zeta in H. unfold clean_key in H.
    destruct (Py.in_list (key_base (text kr)) contact_keys) eqn:Hin;
      unfold_result; apply store_row_raise in H; destruct H as [Hk He].
    + exfalso. apply in_list_true in Hin.
      now apply contact_key_not_expertise in Hk.
    + cbn [row_base]. now rewrite Hk.
  - rewrite parse_row_other_shape in H by assumption. discriminate.
Qed.

Lemma parse_rows_raise (rows : table) (st : string * org_record) (e : exn) :
  parse_rows st rows = Raise e ->
  (exists r, In r rows
             /\ row_base r = Some "areas_of_expertise_fields_of_activity")
  /\ (e = KeyError "" \/ e = TypeError).
Proof.
  revert st. induction rows as [|r rows IH]; intros st H; [discriminate|].
  cbn [parse_rows] in H. unfold_result.
  destruct (parse_row st r) as [st1|e1] eqn:Hr.
  - apply IH in H. destruct H as [(r' & Hin & Hb) He].
    split; [exists r'; split; [now right | exact Hb] | exact He].
  - injection H as <-. apply parse_row_raise in Hr. destruct Hr as [Hb He].
    split; [exists r; split; [now left | exact Hb] | exact He].
Qed.

Lemma parse_tables_raise (tables : form) (o : org_record) (e : exn) :
  parse_tables o tables = Raise e ->
  (exists t r, In t tables /\ In r t
               /\ row_base r = Some "areas_of_expertise_fields_of_activity")
  /\ (e = KeyError "" \/ e = TypeError).
Proof.
  revert o. induction tables as [|t tables IH]; intros o H; [discriminate|].
  cbn [parse_tables] in H. unfold parse_table in H. unfold_result.
  destruct (parse_rows ("hq", o) t) as [st1|e1] eqn:Ht.
  - apply IH in H. destruct H as [(t' & r & Hin & Hr & Hb) He].
    split; [exists t', r; repeat split; [now right | assumption..]
           | exact He].
  - injection H as <-. apply parse_rows_raise in Ht.
    destruct Ht as [(r & Hr & Hb) He].
    split; [exists t, r; repeat split; [now left | assumption..] | exact He].
Qed.

(** The exceptions of the normalisation of a page that has been fetched
    and parsed (lines 118-152).  It fails with an IndexError on a page
    without a form, and otherwise only on a page whose first form has an
    areas-of-expertise row, with KeyError('') or a TypeError. *)
Theorem parse_org_exceptions (profile_code : string) (raw : soup) (e : exn) :
  parse_org profile_code raw = Raise e ->
  raw = [] /\ e = IndexError
  \/ (exists t r, In t (hd [] raw) /\ In r t /\
         row_base r = Some "areas_of_expertise_fields_of_activity")
     /\ (e = KeyError "" \/ e = TypeError).
Proof.
  unfold parse_org. destruct raw as [|form0 raw].
  - intros [= <-]. now left.
  - intros Hp. right. cbn [hd]. now apply parse_tables_raise in Hp.
Qed.

Lemma parse_org_exceptions_witness :
  [[ [[Cell "Areas of expertise / Fields of activity" [];
       Cell "" [Element B "Health"; Element B "E-mail"]]] ]] = ([] : soup)
  /\ TypeError = IndexError
  \/ (exists t r,
        In t (hd [] [[ [[Cell "Areas of expertise / Fields of activity" [];
                         Cell "" [Element B "Health"; Element B "E-mail"]]] ]])
        /\ In r t /\
        row_base r = Some "areas_of_expertise_fields_of_activity")
     /\ (TypeError = KeyError "" \/ TypeError = TypeError).
Proof.
  apply (parse_org_exceptions "7"
           [[ [[Cell "Areas of expertise / Fields of activity" [];
                Cell "" [Element B "Health"; Element B "E-mail"]]] ]]
           TypeError).
  vm_compute. reflexivity.
Defined.

(** A page with a form and without an areas-of-expertise row is always
    parsed into a record. *)
Theorem parse_org_succeeds (profile_code : string) (raw : soup) :
  raw <> [] ->
  (forall t r, In t (hd [] raw) -> In r t ->
     row_base r <> Some "areas_of_expertise_fields_of_activity") ->
  exists organization, parse_org profile_code raw = Ok organization.
Proof.
  intros Hne Hrows. destruct raw as [|form0 raw]; [now elim Hne|].
  cbn [parse_org hd] in *.
  destruct (parse_tables _ form0) as [o|e] eqn:Hp; [now exists o|].
  apply parse_tables_raise in Hp.
  destruct Hp as [(t & r & Ht & Hr & Hb) _]. now elim (Hrows t r).
Qed.

Lemma parse_org_succeeds_witness :
  exists organization,
    parse_org "7" [[ [[Cell "Fax" []; Cell "12" []]; []] ]] = Ok organization.
Proof.
  apply (parse_org_succeeds "7" [[ [[Cell "Fax" []; Cell "12" []]; []] ]]).
  - discriminate.
  - intros t r [<-|[]] [<-|[<-|[]]]; vm_compute; discriminate.
Defined.

(** ** Keys are never removed *)

Lemma store_row_keeps_keys (ct ct' : string) (o o' : org_record)
    (key : string) (v : cell) (k : string) :
  store_row ct o key v = Ok (ct', o') ->
  is_Some (o !! k) -> is_Some (o' !! k).
Proof.
  unfold store_row. intros H Hk.
  assert (Hins : forall x : field_value, is_Some (<[key := x]> o !! k)).
  { intros x. destruct (decide (key = k)) as [->|Hne].
    - rewrite lookup_insert_eq. eauto.
    - now rewrite lookup_insert_ne. }
  destruct (negb _); [|now injection H as _ <-].
  destruct (Py.in_list _ _); [injection H as _ <-; apply Hins|].
  destruct (String.eqb _ _); [|injection H as _ <-; apply Hins].
  destruct (clean_activity_list v); unfold_result; [|discriminate].
  injection H as _ <-. apply Hins.
Qed.

Lemma parse_rows_keeps_keys (rows : table) (st st' : string * org_record)
    (k : string) :
  parse_rows st rows = Ok st' ->
  is_Some (snd st !! k) -> is_Some (snd st' !! k).
Proof.
  revert st. induction rows as [|r rows IH]; intros st H Hk.
  - cbn in H. now injection H as <-.
  - cbn [parse_rows] in H. unfold_result.
    destruct (parse_row st r) as [st1|e] eqn:Hr; [|discriminate].
    apply (IH st1 H). destruct st as [ct o], st1 as [ct1 o1].
    destruct (Nat.eq_dec (length r) 2) as [Hlen|Hlen].
    + destruct r as [|kr [|v [|x r]]]; try discriminate.
      rewrite parse_row_two in Hr. cbv zeta in Hr.
      destruct (clean_key _ _); unfold_result; [|discriminate].
      eapply store_row_keeps_keys; eauto.
    + rewrite parse_row_other_shape in Hr by assumption.
      now injection Hr as _ <-.
Qed.

Lemma parse_tables_keeps_keys (tables : form) (o o' : org_record)
    (k : string) :
  parse_tables o tables = Ok o' -> is_Some (o !! k) -> is_Some (o' !! k).
Proof.
  revert o. induction tables as [|t tables IH]; intros o H Hk.
  - cbn in H. now injection H as <-.
  - cbn [parse_tables] in H. unfold parse_table in H. unfold_result.
    destruct (parse_rows ("hq", o) t) as [st1|e] eqn:Ht; [|discriminate].
    apply (IH _ H). apply (parse_rows_keeps_keys t ("hq", o) st1 k Ht Hk).
Qed.

(** Every record that parse produces has the key [org_id]. *)
Theorem record_has_org_id (profile_code : string) (raw : soup)
    (organization : org_record) :
  parse_org profile_code raw = Ok organization ->
  is_Some (organization !! "org_id").
Proof.
  intros Hp. destruct raw as [|form0 raw]; [discriminate|].
  cbn [parse_org] in Hp. eapply parse_tables_keeps_keys; [exact Hp|].
  rewrite lookup_singleton_eq. eauto.
Qed.

Lemma record_has_org_id_witness :
  is_Some ((<["org_id" := Scalar "9"]> {[ "org_id" := Scalar "7" ]}
            : org_record) !! "org_id").
Proof.
  apply (record_has_org_id "7" [[ [[Cell "Org ID" []; Cell "9" []]] ]]).
  vm_compute. reflexivity.
Defined.

(** ** The trace of the loop *)

Lemma visit_trace_eq (net : string -> reply) (i : nat) (ident : identity)
    (w w' : world) (r : result unit) :
  visit net i ident w = (r, w') ->
  trace w' = trace w
             ++ visit_events i ident (has_profile (org_id ident) w).
Proof.
  rewrite visit_run. unfold visit_events.
  destruct (has_profile (org_id ident) w).
  - intros [= _ <-]. reflexivity.
  - rewrite get_parse_org_run. cbv zeta.
    destruct (net (org_id ident)) as [|rr].
    + intros [= _ <-]. cbn. now rewrite <- !app_assoc.
    + destruct (parse_org (org_id ident) (body rr)); intros [= _ <-];
        cbn; now rewrite <- !app_assoc.
Qed.

(** What the loop body adds to the trace, whether it returns or not.  A
    completed entity is skipped: the body returns after the skip line, with
    no pause and no request.  An entity without a record is requested: at
    index 0 without a pause, at any later index right after the line and
    the sleep of the short pause. *)
Theorem visit_trace (net : string -> reply) (i : nat) (ident : identity)
    (w w' : world) (r : result unit) :
  visit net i ident w = (r, w') ->
  if has_profile (org_id ident) w then
    r = Ok tt /\
    w' = logged w (break_events i
                     ++ [LogSkipping (org_id ident) (org_name ident)])
  else
    trace w' = trace w ++ break_events i
               ++ [LogGetting (org_id ident) i (org_name ident)]
               ++ (if Nat.ltb 0 i then [LogPausing; Sleep Short] else [])
               ++ [Get (org_id ident)].
Proof.
  intros H. pose proof (visit_trace_eq _ _ _ _ _ _ H) as Ht.
  rewrite visit_run in H. unfold visit_events, fetch_events in Ht.
  destruct (has_profile (org_id ident) w).
  - injection H as <- <-. now split.
  - exact Ht.
Qed.

Lemma visit_trace_witness :
  if has_profile (org_id (Identity "A" "7")) (World [] [] []) then
    Raise ConnectionError = Ok tt /\
    World [] [] [LogGetting "7" 1 "A"; LogPausing; Sleep Short; Get "7"]
    = logged (World [] [] [])
        (break_events 1 ++ [LogSkipping (org_id (Identity "A" "7"))
                              (org_name (Identity "A" "7"))])
  else
    trace (World [] [] [LogGetting "7" 1 "A"; LogPausing; Sleep Short;
                        Get "7"])
    = trace (World [] [] []) ++ break_events 1
      ++ [LogGetting (org_id (Identity "A" "7")) 1
            (org_name (Identity "A" "7"))]
      ++ (if Nat.ltb 0 1 then [LogPausing; Sleep Short] else [])
      ++ [Get (org_id (Identity "A" "7"))].
Proof.
  apply (visit_trace (fun _ => Unreachable) 1 (Identity "A" "7")
           (World [] [] [])
           (World [] [] [LogGetting "7" 1 "A"; LogPausing; Sleep Short;
                         Get "7"])
           (Raise ConnectionError)).
  vm_compute. reflexivity.
Defined.

Lemma break_events_small (i : nat) :
  i < long_wait_gap -> break_events i = [].
Proof.
  intros Hi. unfold break_events. destruct i as [|i]; [reflexivity|].
  rewrite Nat.mod_small by exact Hi. reflexivity.
Qed.

Lemma requests_app (a b : list event) :
  requests (a ++ b) = requests a + requests b.
Proof. unfold requests. now rewrite List.filter_app, length_app. Qed.

Lemma requests_visit_events (i : nat) (ident : identity) (c : bool) :
  requests (visit_events i ident c) <= 1.
Proof.
  unfold visit_events, break_events, fetch_events.
  destruct (_ && _), c, (Nat.ltb 0 i); cbn; lia.
Qed.

Lemma visit_events_no_long_break (i : nat) (ident : identity) (c : bool) :
  i < long_wait_gap -> ~ In (Sleep Long) (visit_events i ident c).
Proof.
  intros Hi. unfold visit_events. rewrite break_events_small by exact Hi.
  unfold fetch_events. destruct c, (Nat.ltb 0 i); cbn;
    intuition discriminate.
Qed.

(** What a loop over [l] from index [i] can do: it leaves the identities,
    appends at most one record and makes at most one request for an
    element of [l], and takes no long break while the index stays below
    long_wait_gap. *)
Lemma for_enumerate_visit_effect (net : string -> reply)
    (l : list identity) (i : nat) (w w' : world) (r : result unit) :
  for_enumerate (visit net) i l w = (r, w') ->
  org_ids w' = org_ids w /\
  exists new evs,
    orgs_full w' = orgs_full w ++ new /\ trace w' = trace w ++ evs /\
    length new <= length l /\ requests evs <= length l /\
    (i + length l <= long_wait_gap -> ~ In (Sleep Long) evs).
Proof.
  revert i w. induction l as [|x l IH]; intros i w H.
  - cbn in H. injection H as _ <-. split; [reflexivity|].
    exists [], []. rewrite !app_nil_r. repeat split; auto.
  - cbn [for_enumerate] in H. unfold_crawl.
    destruct (visit net i x w) as [r1 w1] eqn:Hx.
    pose proof (visit_trace_eq _ _ _ _ _ _ Hx) as Ht.
    pose proof (requests_visit_events i x (has_profile (org_id x) w)) as Hreq.
    apply visit_effect in Hx. destruct Hx as (Hids & Hfull & _).
    assert (Hnew : exists new1, orgs_full w1 = orgs_full w ++ new1
                                /\ length new1 <= 1).
    { destruct Hfull as [-> | (_ & rr & o & _ & _ & ->)].
      - exists []. split; [now rewrite app_nil_r | cbn; lia].
      - exists [o]. split; [reflexivity | cbn; lia]. }
    destruct Hnew as (new1 & Hn1 & Hl1).
    destruct r1 as [[]|e].
    + apply IH in H. destruct H as (Hids' & new & evs & Hn & Hev & Hl & Hr & Hb).
      split; [congruence|].
      exists (new1 ++ new), (visit_events i x (has_profile (org_id x) w) ++ evs).
      rewrite Hn, Hn1, Hev, Ht, <- !app_assoc.
      repeat split; try reflexivity.
      * rewrite length_app. cbn [length]. lia.
      * rewrite requests_app. cbn [length]. lia.
      * cbn [length]. intros Hi Hin. apply in_app_or in Hin.
        destruct Hin as [Hin|Hin].
        -- revert Hin. apply visit_events_no_long_break. lia.
        -- revert Hin. apply Hb. lia.
    + injection H as _ <-. split; [exact Hids|].
      exists new1, (visit_events i x (has_profile (org_id x) w)).
      repeat split; try assumption.
      * cbn [length]. lia.
      * cbn [length]. lia.
      * cbn [length]. intros Hi. apply visit_events_no_long_break. lia.
Qed.

Lemma firstn_2_length {A : Type} (l : list A) : length (firstn 2 l) <= 2.
Proof. rewrite length_take. lia. Qed.

Lemma finish_loop_effect (net : string -> reply) (w w' : world)
    (r : result unit) :
  finish (loop net w) = (r, w') ->
  org_ids w' = org_ids w /\
  exists new evs,
    orgs_full w' = orgs_full w ++ new /\ trace w' = trace w ++ evs /\
    length new <= 2 /\ requests evs <= 2 /\ ~ In (Sleep Long) evs.
Proof.
  unfold finish, loop.
  destruct (for_enumerate _ _ _ _) as [r1 w1] eqn:Hfor.
  apply for_enumerate_visit_effect in Hfor.
  destruct Hfor as (Hids & new & evs & Hn & Hev & Hl & Hr & Hb).
  pose proof (firstn_2_length (org_ids w)) as H2.
  assert (Hno : ~ In (Sleep Long) evs)
    by (apply Hb; unfold long_wait_gap; lia).
  destruct r1 as [[]|e]; intros [= _ <-].
  - split; [exact Hids|]. exists new, (evs ++ [LogAllDone]).
    cbn. rewrite Hev, <- app_assoc. repeat split; try assumption; try lia.
    + rewrite requests_app. cbn. lia.
    + intros Hin. apply in_app_or in Hin.
      destruct Hin as [Hin|[Hin|[]]]; [now apply Hno | discriminate].
  - split; [exact Hids|]. exists new, evs.
    repeat split; try assumption; lia.
Qed.

(** One run, however it ends, keeps every record the profile table had,
    appends at most two, makes at most two requests and never takes the long
    break: its loop stops after the second identity. *)
Theorem run_is_bounded (list_html : list list_table) (net : string -> reply)
    (w w' : world) (r : result unit) :
  main list_html net w = (r, w') ->
  exists new evs,
    orgs_full w' = orgs_full w ++ new /\ trace w' = trace w ++ evs /\
    length new <= 2 /\ requests evs <= 2 /\ ~ In (Sleep Long) evs.
Proof.
  destruct (org_ids w) as [|a l] eqn:Hids.
  - rewrite main_unseeded by assumption.
    destruct (generate_list list_html _) as [r1 w1] eqn:Hgen.
    assert (Hw1 : orgs_full w1 = orgs_full w
                  /\ trace w1 = trace w ++ [LogExtracting]).
    { apply generate_list_effect in Hgen.
      destruct Hgen as [-> | [ids ->]]; now split. }
    destruct Hw1 as [Ho Ht]. destruct r1 as [[]|e].
    + intros H. apply finish_loop_effect in H.
      destruct H as (_ & new & evs & Hn & Hev & Hl & Hr & Hb).
      exists new, (LogExtracting :: evs).
      rewrite Hn, Hev, Ho, Ht, <- app_assoc.
      repeat split; try assumption.
      intros [Hin|Hin]; [discriminate | now apply Hb].
    + intros [= _ <-]. exists [], [LogExtracting].
      rewrite app_nil_r. repeat split; try assumption; cbn; try lia.
      intros [Hin|[]]. discriminate.
  - rewrite main_seeded by (rewrite Hids; discriminate).
    intros H. apply finish_loop_effect in H. tauto.
Qed.

Lemma run_is_bounded_witness :
  exists new evs,
    orgs_full (World [Identity "A" "1"] [] [LogGetting "1" 0 "A"; Get "1"])
    = orgs_full (World [Identity "A" "1"] [] []) ++ new
    /\ trace (World [Identity "A" "1"] [] [LogGetting "1" 0 "A"; Get "1"])
       = trace (World [Identity "A" "1"] [] []) ++ evs
    /\ length new <= 2 /\ requests evs <= 2 /\ ~ In (Sleep Long) evs.
Proof.
  apply (run_is_bounded [] (fun _ => Unreachable)
           (World [Identity "A" "1"] [] [])
           (World [Identity "A" "1"] [] [LogGetting "1" 0 "A"; Get "1"])
           (Raise ConnectionError)).
  vm_compute. reflexivity.
Defined.

(** A run on a table that holds identities leaves that table as it is:
    generate_list is called on an empty table only. *)
Theorem seeded_run_keeps_identities (list_html : list list_table)
    (net : string -> reply) (w w' : world) (r : result unit) :
  org_ids w <> [] ->
  main list_html net w = (r, w') ->
  org_ids w' = org_ids w.
Proof.
  intros Hne. rewrite main_seeded by assumption.
  intros H. now apply finish_loop_effect in H.
Qed.

Lemma seeded_run_keeps_identities_witness :
  org_ids (World [Identity "A" "1"] [] [LogGetting "1" 0 "A"; Get "1"])
  = org_ids (World [Identity "A" "1"] [] []).
Proof.
  apply (seeded_run_keeps_identities
           [[[Some (Anchor (Some "showProfileDetail.do?profileCode=9") "B")]]]
           (fun _ => Unreachable)
           (World [Identity "A" "1"] [] [])
           (World [Identity "A" "1"] [] [LogGetting "1" 0 "A"; Get "1"])
           (Raise ConnectionError)).
  - discriminate.
  - vm_compute. reflexivity.
Defined.

(** ** Completion and the second run *)

Lemma visit_completes (net : string -> reply) (i : nat) (ident : identity)
    (w w' : world) :
  keeps_id net ->
  visit net i ident w = (Ok tt, w') ->
  has_profile (org_id ident) w' = true.
Proof.
  intros Hnet. rewrite visit_run.
  destruct (has_profile (org_id ident) w) eqn:Hhas.
  - intros [= <-]. exact Hhas.
  - intros H. apply get_parse_org_ok in H.
    destruct H as (rr & o & Hrr & Hp & Hfull & _).
    pose proof (Hnet _ _ _ Hrr Hp) as Ho.
    unfold has_profile. rewrite Hfull. cbn [orgs_full logged].
    rewrite List.filter_app, length_app. cbn [List.filter].
    rewrite (org_id_is_lookup _ _ _ Ho), String.eqb_refl. cbn [length].
    apply negb_true_iff, Nat.eqb_neq. lia.
Qed.

Lemma visit_monotone (net : string -> reply) (i : nat) (ident : identity)
    (w w' : world) (r : result unit) (id : string) :
  visit net i ident w = (r, w') ->
  has_profile id w = true -> has_profile id w' = true.
Proof.
  intros H Hhas. apply visit_effect in H.
  destruct H as (_ & [Hsame | (_ & rr & o & _ & _ & Happ)] & _).
  - unfold has_profile in *. now rewrite Hsame.
  - eapply has_profile_app; eauto.
Qed.

Lemma for_enumerate_completes (net : string -> reply) (l : list identity)
    (i : nat) (w w' : world) :
  keeps_id net ->
  for_enumerate (visit net) i l w = (Ok tt, w') ->
  (forall id, has_profile id w = true -> has_profile id w' = true) /\
  forall ident, In ident l -> has_profile (org_id ident) w' = true.
Proof.
  intros Hnet. revert i w. induction l as [|x l IH]; intros i w H.
  - cbn in H. injection H as <-. split; [auto | intros ident []].
  - cbn [for_enumerate] in H. unfold_crawl.
    destruct (visit net i x w) as [[[]|e] w1] eqn:Hx; [|discriminate].
    apply IH in H. destruct H as [Hmono Hall]. split.
    + intros id Hid. apply Hmono. eapply visit_monotone; eauto.
    + intros ident [<- | Hin]; [|now apply Hall].
      apply Hmono. eapply visit_completes; eauto.
Qed.

(** Against a site that leaves the identifier alone, a run on a seeded table
    that returns has a record for each of the entities its loop covers, the
    first two of the table. *)
Theorem run_completes (list_html : list list_table) (net : string -> reply)
    (w w' : world) (ident : identity) :
  keeps_id net ->
  org_ids w <> [] ->
  main list_html net w = (Ok tt, w') ->
  In ident (firstn 2 (org_ids w)) ->
  has_profile (org_id ident) w' = true.
Proof.
  intros Hnet Hne. rewrite main_seeded by assumption. unfold finish, loop.
  destruct (for_enumerate _ _ _ _) as [[[]|e] w1] eqn:Hfor; [|discriminate].
  intros [= <-] Hin. rewrite has_profile_logged.
  eapply for_enumerate_completes; eauto.
Qed.

Lemma run_completes_witness :
  has_profile (org_id (Identity "B" "2"))
    (World [Identity "A" "1"; Identity "B" "2"]
       [{[ "org_id" := Scalar "1" ]}; {[ "org_id" := Scalar "2" ]}]
       [LogGetting "1" 0 "A"; Get "1";
        LogGetting "2" 1 "B"; LogPausing; Sleep Short; Get "2";
        LogAllDone]) = true.
Proof.
  apply (run_completes [] (fun _ => Http (Response 200 [[]]))
           (World [Identity "A" "1"; Identity "B" "2"] [] [])).
  - intros id r o Hr Hp. inversion Hr; subst. cbn in Hp.
    inversion Hp; subst. apply lookup_singleton_eq.
  - discriminate.
  - vm_compute. reflexivity.
  - right. left. reflexivity.
Defined.

Lemma for_enumerate_all_completed (net : string -> reply)
    (l : list identity) (i : nat) (w : world) :
  i + length l <= long_wait_gap ->
  (forall ident, In ident l -> has_profile (org_id ident) w = true) ->
  exists evs,
    for_enumerate (visit net) i l w = (Ok tt, logged w evs)
    /\ forallb is_log evs = true.
Proof.
  revert i w. induction l as [|x l IH]; intros i w Hi Hall.
  - exists []. split; [|reflexivity]. cbn. unfold logged.
    rewrite app_nil_r. now destruct w.
  - cbn [for_enumerate]. unfold_crawl. rewrite visit_run.
    rewrite (Hall x (or_introl eq_refl)).
    cbn [length] in Hi. rewrite break_events_small by lia. cbn [app].
    destruct (IH (S i) (logged w [LogSkipping (org_id x) (org_name x)]))
      as (evs & Hrun & Hlog).
    + lia.
    + intros ident Hin. rewrite has_profile_logged. apply Hall. now right.
    + rewrite Hrun. exists (LogSkipping (org_id x) (org_name x) :: evs).
      split; [|exact Hlog]. unfold logged. cbn. now rewrite <- app_assoc.
Qed.

(** A run on a seeded table whose first two entities have a record returns
    after nothing but log lines: it stores nothing, makes no request and
    does not sleep. *)
Theorem completed_run_is_quiet (list_html : list list_table)
    (net : string -> reply) (w : world) :
  org_ids w <> [] ->
  (forall ident, In ident (firstn 2 (org_ids w)) ->
                 has_profile (org_id ident) w = true) ->
  exists evs,
    main list_html net w = (Ok tt, logged w evs)
    /\ forallb is_log evs = true.
Proof.
  intros Hne Hall. rewrite main_seeded by assumption. unfold finish, loop.
  destruct (for_enumerate_all_completed net (firstn 2 (org_ids w)) 0 w)
    as (evs & Hrun & Hlog).
  - pose proof (firstn_2_length (org_ids w)). unfold long_wait_gap. lia.
  - exact Hall.
  - rewrite Hrun. exists (evs ++ [LogAllDone]). split.
    + unfold logged. cbn. now rewrite <- app_assoc.
    + rewrite forallb_app, Hlog. reflexivity.
Qed.

Lemma completed_run_is_quiet_witness :
  exists evs,
    main [] (fun _ => Unreachable)
      (World [Identity "A" "1"] [{[ "org_id" := Scalar "1" ]}] [])
    = (Ok tt,
       logged (World [Identity "A" "1"] [{[ "org_id" := Scalar "1" ]}] [])
         evs)
    /\ forallb is_log evs = true.
Proof.
  apply (completed_run_is_quiet [] (fun _ => Unreachable)
           (World [Identity "A" "1"] [{[ "org_id" := Scalar "1" ]}] [])).
  - discriminate.
  - intros ident [<-|[]]. vm_compute. reflexivity.
Defined.

Lemma generate_list_ok (list_html : list list_table) (w w' : world) :
  generate_list list_html w = (Ok tt, w') ->
  exists ids,
    w' = World (org_ids w ++ ids) (orgs_full w) (trace w) /\
    forall v, generate_list list_html v
              = (Ok tt, World (org_ids v ++ ids) (orgs_full v) (trace v)).
Proof.
  unfold generate_list. destruct list_html as [|t l]; [discriminate|].
  unfold_crawl. destruct (list_rows [] t) as [ids|e]; [|discriminate].
  intros [= <-]. now exists ids.
Qed.

Lemma finish_loop_completes (net : string -> reply) (w0 w1 : world) :
  keeps_id net ->
  finish (loop net w0) = (Ok tt, w1) ->
  org_ids w1 = org_ids w0 /\
  forall ident, In ident (firstn 2 (org_ids w0)) ->
                has_profile (org_id ident) w1 = true.
Proof.
  intros Hnet. unfold finish, loop.
  destruct (for_enumerate _ _ _ _) as [[[]|e] w2] eqn:Hfor; [|discriminate].
  intros [= <-].
  pose proof (for_enumerate_visit_effect _ _ _ _ _ _ Hfor) as [Hids _].
  apply (for_enumerate_completes _ _ _ _ _ Hnet) in Hfor.
  destruct Hfor as [_ Hall]. split; [exact Hids|].
  intros ident Hin. rewrite has_profile_logged. now apply Hall.
Qed.

Lemma finish_loop_quiet (net : string -> reply) (w : world) :
  (forall ident, In ident (firstn 2 (org_ids w)) ->
                 has_profile (org_id ident) w = true) ->
  exists evs,
    finish (loop net w) = (Ok tt, logged w evs)
    /\ forallb is_log evs = true.
Proof.
  intros Hall. unfold finish, loop.
  destruct (for_enumerate_all_completed net (firstn 2 (org_ids w)) 0 w)
    as (evs & Hrun & Hlog).
  - pose proof (firstn_2_length (org_ids w)). unfold long_wait_gap. lia.
  - exact Hall.
  - rewrite Hrun. exists (evs ++ [LogAllDone]). split.
    + unfold logged. cbn. now rewrite <- app_assoc.
    + rewrite forallb_app, Hlog. reflexivity.
Qed.

(** Resuming, as the code does it.  Against a site that leaves the
    identifier alone, the run that follows a run that returned returns too,
    and adds nothing but log lines: no record, no request, no sleep.  This
    holds whether the first run found the identity table filled or filled
    it, and also when the listing gave no identity and the second run reads
    it again. *)
Theorem second_run_is_quiet (list_html : list list_table)
    (net : string -> reply) (w w1 : world) :
  keeps_id net ->
  main list_html net w = (Ok tt, w1) ->
  exists evs,
    main list_html net w1 = (Ok tt, logged w1 evs)
    /\ forallb is_log evs = true.
Proof.
  intros Hnet Hrun. rewrite main_run in Hrun.
  destruct (seeding list_html w) as [[[]|e] w0] eqn:Hseed; [|discriminate].
  apply (finish_loop_completes _ _ _ Hnet) in Hrun.
  destruct Hrun as [Hids Hall].
  rewrite main_run. unfold seeding at 1.
  destruct (org_ids w1) as [|a l] eqn:H1.
  - assert (Hgen : forall v, generate_list list_html v
             = (Ok tt, World (org_ids v ++ []) (orgs_full v) (trace v))).
    { unfold seeding in Hseed. destruct (org_ids w) as [|b k] eqn:Hw.
      - apply generate_list_ok in Hseed.
        destruct Hseed as (ids & -> & Hall_v).
        cbn [org_ids logged] in Hids. rewrite Hw in Hids. cbn in Hids.
        now subst ids.
      - injection Hseed as <-. congruence. }
    rewrite Hgen. unfold finish, loop. cbn [org_ids logged].
    rewrite H1. cbn [app firstn for_enumerate]. unfold_crawl.
    exists [LogExtracting; LogAllDone]. split; [|reflexivity].
    unfold logged. cbn [org_ids orgs_full trace].
    rewrite H1, <- app_assoc. reflexivity.
  - apply finish_loop_quiet.
    intros ident Hin. apply Hall. now rewrite <- Hids, <- H1.
Qed.

Lemma second_run_is_quiet_witness :
  exists evs,
    main [[[Some (Anchor (Some "showProfileDetail.do?profileCode=1") "A")]]]
      (fun _ => Http (Response 200 [[]]))
      (World [Identity "A" "1"] [{[ "org_id" := Scalar "1" ]}]
         [LogExtracting; LogGetting "1" 0 "A"; Get "1"; LogAllDone])
    = (Ok tt,
       logged (World [Identity "A" "1"] [{[ "org_id" := Scalar "1" ]}]
                 [LogExtracting; LogGetting "1" 0 "A"; Get "1"; LogAllDone])
         evs)
    /\ forallb is_log evs = true.
Proof.
  apply (second_run_is_quiet
           [[[Some (Anchor (Some "showProfileDetail.do?profileCode=1") "A")]]]
           (fun _ => Http (Response 200 [[]]))
           (World [] [] [])).
  - exact keeps_id_empty_form.
  - vm_compute. reflexivity.
Defined.

Lemma faux_header_never_a_key_witness :
  (<["hq_fax" := Scalar "12"]> {[ "org_id" := Scalar "7" ]} : org_record)
    !! "headquarters_address" = None.
Proof.
  apply (faux_header_never_a_key "7"
           [[ [[Cell "Headquarters address" []; Cell "" []];
               [Cell "Fax" []; Cell "12" []]] ]]).
  - vm_compute. reflexivity.
  - left. reflexivity.
Defined.

Lemma two_runs_no_duplicate_witness :
  distinct_ids
    (orgs_full (World [Identity "A" "1"] [{[ "org_id" := Scalar "1" ]}]
                  [LogGetting "1" 0 "A"; Get "1"; LogAllDone]))
  /\ distinct_ids
       (orgs_full (World [Identity "A" "1"] [{[ "org_id" := Scalar "1" ]}]
                     [LogGetting "1" 0 "A"; Get "1"; LogAllDone;
                      LogSkipping "1" "A"; LogAllDone])).
Proof.
  apply (two_runs_no_duplicate [] (fun _ => Http (Response 200 [[]]))
           (World [Identity "A" "1"] [] []) _ _ (Ok tt) (Ok tt)).
  - exact keeps_id_empty_form.
  - intros id. cbn. lia.
  - vm_compute. reflexivity.
  - vm_compute. reflexivity.
Defined.

Lemma completed_entity_not_fetched_witness :
  has_profile "1"
    (World [Identity "A" "1"; Identity "B" "2"]
       [{[ "org_id" := Scalar "1" ]}]
       [LogSkipping "1" "A"; LogGetting "2" 1 "B"; LogPausing; Sleep Short;
        Get "2"]) = true
  /\ exists evs,
       trace (World [Identity "A" "1"; Identity "B" "2"]
                [{[ "org_id" := Scalar "1" ]}]
                [LogSkipping "1" "A"; LogGetting "2" 1 "B"; LogPausing;
                 Sleep Short; Get "2"])
       = trace (World [Identity "A" "1"; Identity "B" "2"]
                  [{[ "org_id" := Scalar "1" ]}] []) ++ evs
       /\ ~ In (Get "1") evs.
Proof.
  apply (completed_entity_not_fetched [] (fun _ => Unreachable) "1"
           (World [Identity "A" "1"; Identity "B" "2"]
              [{[ "org_id" := Scalar "1" ]}] [])
           _ (Raise ConnectionError)).
  - vm_compute. reflexivity.
  - vm_compute. reflexivity.
Defined.
